(** * make_errorcodes: a shallow embedding of scripts/make_errorcodes.py

    The script regenerates psycopg2's [errorcodes] module: it reads the
    target file up to the [# autogenerated] marker, downloads
    [errcodes.txt] for a fixed list of PostgreSQL versions, parses each
    document into a table of classes and a table of errors, merges the
    tables in version order and prints the sorted declarations.

    Data model.  A Python [str] is a [string]; every text the script
    handles is an ASCII literal or the result of [bytes.decode("ascii")],
    so the characters are code points below 128.  A [bytes] line of a
    downloaded page is a [string] of octets.  A [dict] is an association
    list in insertion order with unique keys; exceptions are values of
    [exn] carried by [result]. *)

From Stdlib Require Import String Ascii NArith ZArith Lia Bool.
From stdpp Require Import base list sorting strings.

(** ** Exceptions and results *)

Inductive exn : Type :=
| ValueError (msg : string)
| UnicodeDecodeError
| UnboundLocalError (var : string)
| IndexError
| FileNotFoundError (path : string)
| URLError (url : string).

Inductive result (A : Type) : Type :=
| Ok (a : A)
| Raise (e : exn).

Arguments Ok {A} a.
Arguments Raise {A} e.

#[global] Instance result_bind : MBind result := fun A B f r =>
  match r with
  | Ok a => f a
  | Raise e => Raise e
  end.

(** ** The builtins of [str] that the script calls *)

Module Py.

Definition code (a : ascii) : N := N_of_ascii a.

(** [str.isspace] on one ASCII character: TAB..CR, FS..US and SPACE. *)
Definition isspace (a : ascii) : bool :=
  let n := code a in
  ((9 <=? n) && (n <=? 13) || (28 <=? n) && (n <=? 32))%N.

Definition is_lf (a : ascii) : bool := Ascii.eqb a "010".

Fixpoint all (p : ascii -> bool) (s : string) : bool :=
  match s with
  | EmptyString => true
  | String a s' => p a && all p s'
  end.

(** [s.lstrip(chars)], [s.rstrip(chars)], [s.strip(chars)], with the set of
    characters given as a predicate. *)
Fixpoint lstrip_with (p : ascii -> bool) (s : string) : string :=
  match s with
  | EmptyString => EmptyString
  | String a s' => if p a then lstrip_with p s' else s
  end.

Fixpoint rstrip_with (p : ascii -> bool) (s : string) : string :=
  match s with
  | EmptyString => EmptyString
  | String a s' =>
      match rstrip_with p s' with
      | EmptyString => if p a then EmptyString else String a EmptyString
      | r => String a r
      end
  end.

(** [s.strip()] *)
Definition strip (s : string) : string :=
  rstrip_with isspace (lstrip_with isspace s).

(** [s.rstrip("\n")] *)
Definition rstrip_lf (s : string) : string := rstrip_with is_lf s.

(** [s.startswith(p)] *)
Definition startswith (s p : string) : bool := String.prefix p s.

Fixpoint drop (n : nat) (s : string) : string :=
  match n, s with
  | O, _ => s
  | S n', String _ s' => drop n' s'
  | S _, EmptyString => EmptyString
  end.

(** [s.partition(sep)] for a non-empty [sep]: the text before the first
    occurrence of [sep] and the text after it, [None] when [sep] does not
    occur. *)
Fixpoint partition (sep s : string) : option (string * string) :=
  if String.prefix sep s then Some (EmptyString, drop (String.length sep) s)
  else
    match s with
    | EmptyString => None
    | String a s' =>
        match partition sep s' with
        | Some (b, t) => Some (String a b, t)
        | None => None
        end
    end.

Fixpoint split_fuel (n : nat) (sep s : string) : list string :=
  match n with
  | O => [s]
  | S n' =>
      match partition sep s with
      | None => [s]
      | Some (b, t) => b :: split_fuel n' sep t
      end
  end.

(** [s.split(sep)] for a non-empty [sep].  Every cut removes at least one
    character, so [length s] rounds are enough. *)
Definition split (sep s : string) : list string :=
  split_fuel (String.length s) sep s.

(** [s.split()]: the maximal runs of non-whitespace characters. *)
Fixpoint split_ws_aux (cur : string) (s : string) : list string :=
  match s with
  | EmptyString => match cur with EmptyString => [] | _ => [cur] end
  | String a s' =>
      if isspace a then
        match cur with
        | EmptyString => split_ws_aux EmptyString s'
        | _ => cur :: split_ws_aux EmptyString s'
        end
      else split_ws_aux (cur +:+ String a EmptyString) s'
  end.

Definition split_ws (s : string) : list string := split_ws_aux EmptyString s.

(** [s.replace(old, new)] for one-character [old] and [new]. *)
Fixpoint replace (old new : ascii) (s : string) : string :=
  match s with
  | EmptyString => EmptyString
  | String a s' =>
      String (if Ascii.eqb a old then new else a) (replace old new s')
  end.

Definition upper_char (a : ascii) : ascii :=
  let n := code a in
  if ((97 <=? n) && (n <=? 122))%N then ascii_of_N (n - 32) else a.

(** [s.upper()] on ASCII text. *)
Fixpoint upper (s : string) : string :=
  match s with
  | EmptyString => EmptyString
  | String a s' => String (upper_char a) (upper s')
  end.

(** [b.decode("ascii")]: fails on any octet above 127. *)
Definition decode_ascii (b : string) : result string :=
  if all (fun a => (code a <? 128)%N) b then Ok b else Raise UnicodeDecodeError.

Definition hex_digit (n : N) : ascii :=
  if (n <? 10)%N then ascii_of_N (48 + n) else ascii_of_N (87 + n).

(** One character of [repr(s)] between quotes [q]. *)
Definition repr_char (q : ascii) (a : ascii) : string :=
  let n := code a in
  if Ascii.eqb a "\" then "\\"
  else if Ascii.eqb a q then String "\" (String q EmptyString)
  else if Ascii.eqb a "009" then "\t"
  else if Ascii.eqb a "010" then "\n"
  else if Ascii.eqb a "013" then "\r"
  else if ((n <? 32) || (127 <=? n))%N then
    String "\" (String "x" (String (hex_digit (n / 16))
                            (String (hex_digit (n mod 16)) EmptyString)))
  else String a EmptyString.

Fixpoint repr_body (q : ascii) (s : string) : string :=
  match s with
  | EmptyString => EmptyString
  | String a s' => repr_char q a +:+ repr_body q s'
  end.

Fixpoint contains_char (c : ascii) (s : string) : bool :=
  match s with
  | EmptyString => false
  | String a s' => Ascii.eqb a c || contains_char c s'
  end.

(** [repr(s)], the text that [%r] inserts: single quotes, unless the text
    has a single quote and no double quote. *)
Definition repr (s : string) : string :=
  let q : ascii :=
    if contains_char "'" s && negb (contains_char "034" s) then "034"%char
    else "'"%char in
  String q (repr_body q s +:+ String q EmptyString).

End Py.

(** ** Regular expressions

    A backtracking matcher for the fragment of Python's [re] syntax that the
    two patterns of [parse_errors_txt] use: literal text, [.], [\s], [\S],
    a greedy [+] on one of these, sequence, ordered alternation, a greedy
    optional group, capturing groups and [$].  The matcher is written in
    continuation-passing style: the continuation receives the text consumed,
    the text that remains and the groups captured so far, and a [None] from
    the continuation makes the matcher try its next alternative. *)

Module Re.

Inductive cclass : Type :=
| Any        (* .  : any character but a newline *)
| Space      (* \s *)
| NonSpace.  (* \S *)

Definition cmatch (c : cclass) (a : ascii) : bool :=
  match c with
  | Any => negb (Py.is_lf a)
  | Space => Py.isspace a
  | NonSpace => negb (Py.isspace a)
  end.

Inductive regex : Type :=
| Lit (s : string)
| One (c : cclass)
| Plus (c : cclass)
| Seq (r1 r2 : regex)
| Alt (r1 r2 : regex)
| Opt (r : regex)
| Group (i : nat) (r : regex)
| Eol.

(** The groups of a match, as [m.groups()] lists them: group [i + 1] is at
    index [i], and a group that took no part in the match is [None]. *)
Definition groups := list (option string).

Definition cont := string -> string -> groups -> option groups.

Fixpoint strip_prefix (p s : string) : option string :=
  match p, s with
  | EmptyString, _ => Some s
  | String a p', String b s' => if Ascii.eqb a b then strip_prefix p' s' else None
  | String _ _, EmptyString => None
  end.

(** [c+]: the longest run first, then shorter ones. *)
Fixpoint plus (c : cclass) (s : string) (k : string -> string -> option groups)
  : option groups :=
  match s with
  | EmptyString => None
  | String a s' =>
      if cmatch c a then
        match plus c s' (fun w rest => k (String a w) rest) with
        | Some g => Some g
        | None => k (String a EmptyString) s'
        end
      else None
  end.

Fixpoint run (r : regex) (s : string) (g : groups) (k : cont) : option groups :=
  match r with
  | Lit p =>
      match strip_prefix p s with
      | Some rest => k p rest g
      | None => None
      end
  | One c =>
      match s with
      | String a s' => if cmatch c a then k (String a EmptyString) s' g else None
      | EmptyString => None
      end
  | Plus c => plus c s (fun w rest => k w rest g)
  | Seq r1 r2 =>
      run r1 s g (fun w1 s1 g1 =>
      run r2 s1 g1 (fun w2 s2 g2 => k (w1 +:+ w2) s2 g2))
  | Alt r1 r2 =>
      match run r1 s g k with
      | Some g' => Some g'
      | None => run r2 s g k
      end
  | Opt r1 =>
      match run r1 s g k with
      | Some g' => Some g'
      | None => k EmptyString s g
      end
  | Group i r1 =>
      run r1 s g (fun w rest g' => k w rest (<[i := Some w]> g'))
  | Eol =>
      match s with
      | EmptyString => k EmptyString s g
      | String a EmptyString => if Py.is_lf a then k EmptyString s g else None
      | _ => None
      end
  end.

(** [re.match(r, s)] for a pattern with [n] groups, then [m.groups()]:
    the match is anchored at the start of [s] only. *)
Definition matches (n : nat) (r : regex) (s : string) : option groups :=
  run r s (replicate n None) (fun _ _ g => Some g).

Fixpoint seq (rs : list regex) : regex :=
  match rs with
  | [] => Lit EmptyString
  | [r] => r
  | r :: rs' => Seq r (seq rs')
  end.

End Re.

(** [r"Section: (Class (..) - .+)"] *)
Definition section_re : Re.regex :=
  Re.seq [ Re.Lit "Section: ";
           Re.Group 0 (Re.seq [ Re.Lit "Class ";
                                Re.Group 1 (Re.Seq (Re.One Re.Any) (Re.One Re.Any));
                                Re.Lit " - ";
                                Re.Plus Re.Any ]) ].

(** [r"(.....)\s+(?:E|W|S)\s+ERRCODE_(\S+)(?:\s+(\S+))?$"] *)
Definition error_re : Re.regex :=
  Re.seq [ Re.Group 0 (Re.seq (replicate 5 (Re.One Re.Any)));
           Re.Plus Re.Space;
           Re.Alt (Re.Lit "E") (Re.Alt (Re.Lit "W") (Re.Lit "S"));
           Re.Plus Re.Space;
           Re.Lit "ERRCODE_";
           Re.Group 1 (Re.Plus Re.NonSpace);
           Re.Opt (Re.Seq (Re.Plus Re.Space) (Re.Group 2 (Re.Plus Re.NonSpace)));
           Re.Eol ].

(** ** More builtins: indexing, [int], file lines, [dict], [sorted] *)

Module Builtins.

(** [l[i]] *)
Definition index {A} (l : list A) (i : nat) : result A :=
  match l !! i with
  | Some x => Ok x
  | None => Raise IndexError
  end.

Definition is_digit (a : ascii) : bool :=
  let n := Py.code a in ((48 <=? n) && (n <=? 57))%N.

(** The digits of an [int] literal: single underscores may separate
    digits. *)
Fixpoint digits (acc : Z) (after_digit : bool) (s : string) : option Z :=
  match s with
  | EmptyString => if after_digit then Some acc else None
  | String a s' =>
      if is_digit a then
        digits (10 * acc + Z.of_N (Py.code a - 48)) true s'
      else if Ascii.eqb a "_" then
        if after_digit then digits acc false s' else None
      else None
  end.

(** [int(s)] *)
Definition int (s : string) : result Z :=
  let r :=
    match Py.strip s with
    | String "+" d => digits 0 false d
    | String "-" d => Z.opp <$> digits 0 false d
    | d => digits 0 false d
    end in
  match r with
  | Some z => Ok z
  | None => Raise (ValueError ("invalid literal for int() with base 10: " +:+ Py.repr s))
  end.

Definition is_cr (a : ascii) : bool := Ascii.eqb a "013".

(** The lines of a text file as iteration over [open(filename)] gives them.
    The file is read in text mode with universal newlines: a line ends at a
    line feed, at a carriage return or at a carriage return followed by a
    line feed, and each of these ends is given as one line feed.  The line in
    progress is [cur]; [after_cr] says that the last character was a carriage
    return, whose line is out already, so that a line feed now belongs to
    it. *)
Fixpoint lines_aux (cur : string) (after_cr : bool) (s : string) : list string :=
  match s with
  | EmptyString => match cur with EmptyString => [] | _ => [cur] end
  | String a s' =>
      if is_cr a then
        (cur +:+ String "010" EmptyString) :: lines_aux EmptyString true s'
      else if Py.is_lf a then
        if after_cr then lines_aux cur false s'
        else (cur +:+ String "010" EmptyString) :: lines_aux EmptyString false s'
      else lines_aux (cur +:+ String a EmptyString) false s'
  end.

Definition lines (s : string) : list string := lines_aux EmptyString false s.

(** What [print(line, file=f)] for every [line] of [ls] writes, where the
    line separator of the system is the line feed. *)
Fixpoint unlines (ls : list string) : string :=
  match ls with
  | [] => EmptyString
  | l :: ls' => l +:+ String "010" (unlines ls')
  end.

(** [for x in xs: st = body(st, x)], stopping at the first exception. *)
Fixpoint for_each {A S} (body : S -> A -> result S) (st : S) (xs : list A)
  : result S :=
  match xs with
  | [] => Ok st
  | x :: xs' => st' ← body st x; for_each body st' xs'
  end.

Fixpoint map_result {A B} (f : A -> result B) (xs : list A) : result (list B) :=
  match xs with
  | [] => Ok []
  | x :: xs' => y ← f x; ys ← map_result f xs'; Ok (y :: ys)
  end.

End Builtins.

(** *** Dictionaries *)

Definition dict (V : Type) : Type := list (string * V).

Section Dict.
Context {V : Type}.

(** [d.get(k)] *)
Fixpoint dict_get (d : dict V) (k : string) : option V :=
  match d with
  | [] => None
  | (k', v) :: d' => if decide (k' = k) then Some v else dict_get d' k
  end.

(** [d[k] = v]: an existing key keeps its place, a new key goes last. *)
Fixpoint dict_set (d : dict V) (k : string) (v : V) : dict V :=
  match d with
  | [] => [(k, v)]
  | (k', v') :: d' =>
      if decide (k' = k) then (k', v) :: d' else (k', v') :: dict_set d' k v
  end.

(** [d.update(other)] *)
Definition dict_update (d other : dict V) : dict V :=
  foldl (fun acc kv => dict_set acc kv.1 kv.2) d other.

(** The invariant of a [dict]: no key twice. *)
Definition dict_wf (d : dict V) : Prop := NoDup d.*1.

End Dict.

(** [errors = defaultdict(dict)]: reading a missing key stores an empty
    inner dict under it, and the inner dicts are updated in place. *)
Definition errtable : Type := dict (dict string).

(** [errors[c]], with the table as the read leaves it. *)
Definition dd_getitem (errors : errtable) (c : string) : dict string * errtable :=
  match dict_get errors c with
  | Some inner => (inner, errors)
  | None => ([], dict_set errors c [])
  end.

(** [errors[c][e] = l] *)
Definition dd_set (errors : errtable) (c e l : string) : errtable :=
  let '(inner, errors') := dd_getitem errors c in
  dict_set errors' c (dict_set inner e l).

(** [errors[c].update(cerrs)] *)
Definition dd_update (errors : errtable) (c : string) (cerrs : dict string) : errtable :=
  let '(inner, errors') := dd_getitem errors c in
  dict_set errors' c (dict_update inner cerrs).

(** The merge of one version's errors, [for c, cerrs in e1.items():
    errors[c].update(cerrs)]. *)
Definition merge_errors (errors e1 : errtable) : errtable :=
  foldl (fun errors item => dd_update errors item.1 item.2) errors e1.

(** The label stored for error [e] of class [c], if any. *)
Definition lookup2 (errors : errtable) (c e : string) : option string :=
  inner ← dict_get errors c; dict_get inner e.

(** *** [sorted] on a list of pairs of strings *)

(** [x <= y] for tuples of two strings, compared by code points: the first
    components decide, the second break a tie. *)
Definition item_leb (x y : string * string) : bool :=
  match String.compare x.1 y.1 with
  | Lt => true
  | Eq => String.leb x.2 y.2
  | Gt => false
  end.

Definition item_le (x y : string * string) : Prop := item_leb x y = true.

#[global] Instance item_le_dec x y : Decision (item_le x y).
Proof. unfold item_le. apply _. Defined.

(** [sorted(d.items())].  The order is total and antisymmetric, so the
    sorted list is unique (lemma [sorted_unique] below) and the algorithm
    does not matter. *)
Definition sorted (items : list (string * string)) : list (string * string) :=
  merge_sort item_le items.

(** ** Effects: the network, the standard error stream, the file system

    A run is observed through the events it performs, in order; the page that
    a URL returns is a parameter of the model.  A text file is the [string]
    of its characters as stored, ends of lines included ([Builtins.lines]
    reads them the way text mode does), and every path of the model is
    writable. *)

Inductive event : Type :=
| Stderr (line : string)    (* print(line, file=sys.stderr) *)
| UrlOpen (url : string).   (* urlopen(url) *)

Definition io (A : Type) : Type := list event * result A.

#[global] Instance io_bind : MBind io := fun A B f m =>
  match m.2 with
  | Ok a => let r := f a in (m.1 ++ r.1, r.2)
  | Raise e => (m.1, Raise e)
  end.

Definition pure {A} (r : result A) : io A := ([], r).
Definition emit (ev : event) : io unit := ([ev], Ok tt).

Fixpoint io_for_each {A S} (body : S -> A -> io S) (st : S) (xs : list A) : io S :=
  match xs with
  | [] => pure (Ok st)
  | x :: xs' => st' ← body st x; io_for_each body st' xs'
  end.

Definition filesystem : Type := string -> option string.

Definition fs_write (fs : filesystem) (path content : string) : filesystem :=
  fun p => if decide (p = path) then Some content else fs p.

(** ** The script *)

(** The locals of [parse_errors_txt] that live across iterations of its
    loop; [class_] is unbound until the first section line. *)
Record locals : Type := Locals {
  classes : dict string;
  errors : errtable;
  class_ : option string;
}.

(** [line.decode("ascii").split('#')[0].strip()] *)
Definition cleaned (raw : string) : result string :=
  text ← Py.decode_ascii raw;
  before ← Builtins.index (Py.split "#" text) 0;
  Ok (Py.strip before).

(** [ValueError("unexpected line:\n%s" % line)] *)
Definition unexpected_line (line : string) : exn :=
  ValueError ("unexpected line:" +:+ String "010" line).

(** [errors[class_][errcode] = errlabel] *)
Definition store_error (st : locals) (errcode errlabel : string) : result locals :=
  match class_ st with
  | None => Raise (UnboundLocalError "class_")
  | Some c => Ok (Locals (classes st) (dd_set (errors st) c errcode errlabel) (class_ st))
  end.

(** The body of the loop of [parse_errors_txt] on one line of the page.  A
    match of [section_re] binds both of its groups and a match of [error_re]
    its first two (lemmas [section_groups] and [error_groups]), so the last
    branch of each [match] on the groups is never taken. *)
Definition parse_line (st : locals) (raw : string) : result locals :=
  line ← cleaned raw;
  if decide (line = EmptyString) then Ok st
  else
    match Re.matches 2 section_re line with
    | Some [Some label; Some cls] =>
        Ok (Locals (dict_set (classes st) cls label) (errors st) (Some cls))
    | Some _ => Ok st
    | None =>
        match Re.matches 3 error_re line with
        | Some [Some errcode; Some macro; spec] =>
            match spec with
            | None | Some EmptyString => Ok st
            | Some spec =>
                let errlabel := Py.upper spec in
                store_error st errcode errlabel
            end
        | Some _ => Ok st
        | None => Raise (unexpected_line line)
        end
    end.

(** [errors_txt_url % tag] *)
Definition errors_txt_url (tag : string) : string :=
  "http://git.postgresql.org/gitweb/?p=postgresql.git;a=blob_plain;"
  +:+ "f=src/backend/utils/errcodes.txt;hb=" +:+ tag.

(** [tver[0] >= 10 and 'REL_' or 'REL'], then the version with dots
    replaced, then [_STABLE]. *)
Definition version_tag (version : string) : result string :=
  first ← Builtins.index (Py.split_ws version) 0;
  tver ← Builtins.map_result Builtins.int (Py.split "." first);
  major ← Builtins.index tver 0;
  Ok ((if (10 <=? major)%Z then "REL_" else "REL")
        +:+ Py.replace "." "_" version +:+ "_STABLE").

(** The exception of [read_base_file]. *)
Definition no_separator : exn :=
  ValueError "can't find the separator. Is this the right file?".

Section Script.

(** The pages of the web: the lines of the response for a URL, or the
    exception that [urlopen] raises. *)
Variable urlopen : string -> result (list string).

Definition parse_errors_txt (url : string) : io (dict string * errtable) :=
  _ ← emit (UrlOpen url);
  pure (page ← urlopen url;
        st ← Builtins.for_each parse_line (Locals [] [] None) page;
        Ok (classes st, errors st)).

(** One iteration of the loop of [fetch_errors]. *)
Definition fetch_version (acc : dict string * errtable) (version : string)
  : io (dict string * errtable) :=
  _ ← emit (Stderr version);
  tag ← pure (version_tag version);
  parsed ← parse_errors_txt (errors_txt_url tag);
  let classes := dict_update acc.1 parsed.1 in
  let errors := dd_set acc.2 "22" "22020" "INVALID_LIMIT_VALUE" in
  let errors := merge_errors errors parsed.2 in
  pure (Ok (classes, errors)).

Definition fetch_errors (versions : list string) : io (dict string * errtable) :=
  io_for_each fetch_version ([], []) versions.

End Script.

(** The identifier after [CLASS_] for a class label. *)
Definition class_const (clslabel : string) : result string :=
  part ← Builtins.index (Py.split " - " clslabel) 1;
  name ← Builtins.index (Py.split "(" part) 0;
  Ok (Py.upper (Py.replace "/" "_" (Py.replace " " "_" (Py.strip name)))).

(** The first loop of [generate_module_data]: the lines it yields and the
    exception that ends it, if any. *)
Fixpoint class_lines (items : list (string * string)) : list string * option exn :=
  match items with
  | [] => ([], None)
  | (clscode, clslabel) :: rest =>
      match class_const clslabel with
      | Raise e => ([], Some e)
      | Ok err =>
          let r := class_lines rest in
          (("CLASS_" +:+ err +:+ " = " +:+ Py.repr clscode) :: r.1, r.2)
      end
  end.

Definition error_line (item : string * string) : string :=
  item.2 +:+ " = " +:+ Py.repr item.1.

(** The second loop: the lines, and the table as the reads of [errors[clscode]]
    leave it. *)
Fixpoint section_lines (errors : errtable) (items : list (string * string))
  : list string * errtable :=
  match items with
  | [] => ([], errors)
  | (clscode, clslabel) :: rest =>
      let '(inner, errors') := dd_getitem errors clscode in
      let r := section_lines errors' rest in
      (EmptyString :: ("# " +:+ clslabel) :: map error_line (sorted inner) ++ r.1, r.2)
  end.

Record generated : Type := Generated {
  yielded : list string;        (* the lines, in order *)
  raised : option exn;          (* the exception that stopped the generator *)
  errors_after : errtable;      (* the table once the generator is exhausted *)
}.

Definition generate_module_data (classes : dict string) (errors : errtable) : generated :=
  let head := [EmptyString; "# Error classes"] in
  let r1 := class_lines (sorted classes) in
  match r1.2 with
  | Some e => Generated (head ++ r1.1) (Some e) errors
  | None =>
      let r2 := section_lines errors (sorted classes) in
      Generated (head ++ r1.1 ++ r2.1) None r2.2
  end.

Fixpoint read_lines (rv : list string) (lines : list string) : result (list string) :=
  match lines with
  | [] => Raise no_separator
  | line :: rest =>
      let rv := rv ++ [Py.rstrip_lf line] in
      if Py.startswith line "# autogenerated" then Ok rv else read_lines rv rest
  end.

Definition read_base_file (fs : filesystem) (filename : string) : result (list string) :=
  match fs filename with
  | None => Raise (FileNotFoundError filename)
  | Some content => read_lines [] (Builtins.lines content)
  end.

Definition versions : list string :=
  ["9.1"; "9.2"; "9.3"; "9.4"; "9.5"; "9.6"; "10"; "11"; "12"].

(** What a run leaves behind: the events, the file system and the value that
    [main] returns ([Some 2] after the usage message, [None] otherwise) or
    the exception that ends it. *)
Record outcome : Type := Outcome {
  trace : list event;
  files : filesystem;
  returned : result (option Z);
}.

Section Main.

Variable urlopen : string -> result (list string).

Definition main (argv : list string) (fs : filesystem) : outcome :=
  match argv with
  | [_; filename] =>
      match read_base_file fs filename with
      | Raise e => Outcome [] fs (Raise e)
      | Ok file_start =>
          let fetched := fetch_errors urlopen versions in
          match fetched.2 with
          | Raise e => Outcome fetched.1 fs (Raise e)
          | Ok (classes, errors) =>
              (* open(filename, "w") empties the file; then every line that
                 is printed before the generator stops is in it *)
              let g := generate_module_data classes errors in
              let fs' := fs_write fs filename
                           (Builtins.unlines (file_start ++ yielded g)) in
              Outcome fetched.1 fs'
                      (match raised g with Some e => Raise e | None => Ok None end)
          end
      end
  | prog :: _ =>
      Outcome [Stderr ("usage: " +:+ prog +:+ " /path/to/errorcodes.py")] fs (Ok (Some 2%Z))
  | [] => Outcome [] fs (Raise IndexError)
  end.

End Main.

(** * Specifications

    The predicates, the derived functions and the sample data that the
    statements below use. *)

(** ** Invariants of the tables *)

(** In a table of errors no class occurs twice, and in no class an error. *)
Definition errtable_wf (t : errtable) : Prop :=
  dict_wf t ∧ ∀ c inner, (c, inner) ∈ t → dict_wf inner.

(** ** A declarative reading of the patterns *)

(** [denote r w rest g g'] says that [r] can consume [w] in front of [rest],
    taking the groups from [g] to [g']. *)
Inductive denote : Re.regex → string → string → Re.groups → Re.groups → Prop :=
| DLit p rest g : denote (Re.Lit p) p rest g g
| DOne c a rest g :
    Re.cmatch c a = true → denote (Re.One c) (String a "") rest g g
| DPlus c w rest g :
    w ≠ "" → Py.all (Re.cmatch c) w = true → denote (Re.Plus c) w rest g g
| DSeq r1 r2 w1 w2 rest g g1 g2 :
    denote r1 w1 (w2 +:+ rest) g g1 → denote r2 w2 rest g1 g2 →
    denote (Re.Seq r1 r2) (w1 +:+ w2) rest g g2
| DAltL r1 r2 w rest g g' : denote r1 w rest g g' → denote (Re.Alt r1 r2) w rest g g'
| DAltR r1 r2 w rest g g' : denote r2 w rest g g' → denote (Re.Alt r1 r2) w rest g g'
| DOptSome r w rest g g' : denote r w rest g g' → denote (Re.Opt r) w rest g g'
| DOptNone r rest g : denote (Re.Opt r) "" rest g g
| DGroup i r w rest g g' :
    denote r w rest g g' → denote (Re.Group i r) w rest g (<[i := Some w]> g')
| DEol rest g : rest = "" ∨ rest = String "010" "" → denote Re.Eol "" rest g g.

(** A run of whitespace, a word without whitespace. *)
Definition spaces (w : string) : Prop :=
  w ≠ "" ∧ Py.all Py.isspace w = true.

Definition token (w : string) : Prop :=
  w ≠ "" ∧ Py.all (fun a => negb (Py.isspace a)) w = true.

(** The lines that [error_re] describes: five characters, spaces, one of
    the letters [E], [W], [S], spaces, [ERRCODE_] and a macro name, then
    nothing more or spaces and one more word, up to the end of the line (or
    to a last newline). *)
Definition error_shape (line errcode macro : string) (spec : option string) : Prop :=
  ∃ ws1 sev ws2 tail eol,
    line = errcode +:+ ws1 +:+ sev +:+ ws2 +:+ "ERRCODE_" +:+ macro +:+ tail +:+ eol
    ∧ String.length errcode = 5
    ∧ Py.all (fun a => negb (Py.is_lf a)) errcode = true
    ∧ spaces ws1 ∧ sev ∈ ["E"; "W"; "S"] ∧ spaces ws2 ∧ token macro
    ∧ match spec with
      | Some s => ∃ ws3, tail = ws3 +:+ s ∧ spaces ws3 ∧ token s
      | None => tail = ""
      end
    ∧ (eol = "" ∨ eol = String "010" "").

(** ** The loop of the parser and the step of the merge *)

Definition parse_inv (st : locals) : Prop :=
  dict_wf (classes st) ∧ errtable_wf (errors st).

(** The loop of [parse_errors_txt] on the lines of a page. *)
Definition parse_page (page : list string) : result (dict string * errtable) :=
  st ← Builtins.for_each parse_line (Locals [] [] None) page;
  Ok (classes st, errors st).

(** What the document of a version defines: the tables that
    [parse_errors_txt] returns for the URL of its branch. *)
Definition parse_version (urlopen : string → result (list string)) (version : string)
  : result (dict string * errtable) :=
  tag ← version_tag version;
  page ← urlopen (errors_txt_url tag);
  parse_page page.

(** What one iteration of [fetch_errors] makes of the tables. *)
Definition merge_version (acc parsed : dict string * errtable) : dict string * errtable :=
  (dict_update acc.1 parsed.1,
   merge_errors (dd_set acc.2 "22" "22020" "INVALID_LIMIT_VALUE") parsed.2).

Definition tables_wf (t : dict string * errtable) : Prop :=
  dict_wf t.1 ∧ errtable_wf t.2.

(** ** Sample data *)

Definition nl : string := String "010" "".

(** Two documents: release 9.1 has class 22 with 22020 under a label of its
    own, release 10 relabels 22001 and moves 22020 and 22P01 to class 2F. *)
Definition sample_91 : list string :=
  [ "# errcodes.txt" +:+ nl;
    nl;
    "Section: Class 22 - Data Exception" +:+ nl;
    "22001    E    ERRCODE_STRING_DATA_RIGHT_TRUNCATION    string_data_right_truncation" +:+ nl;
    "22020    E    ERRCODE_INVALID_LIMIT    invalid_limit" +:+ nl;
    "22P01    E    ERRCODE_FLOATING_POINT_EXCEPTION    floating_point_exception" +:+ nl;
    "2200X    E    ERRCODE_NO_NAME" +:+ nl ].

Definition sample_10 : list string :=
  [ "Section: Class 22 - Data Exception (revised)" +:+ nl;
    "22001    E    ERRCODE_STRING_DATA_RIGHT_TRUNCATION    string_truncation  # renamed" +:+ nl;
    "Section: Class 2F - SQL Routine Exception" +:+ nl;
    "22020    E    ERRCODE_MOVED    moved_limit" +:+ nl;
    "22P01    E    ERRCODE_MOVED_TOO    fp_exception" +:+ nl ].

Definition sample_web (url : string) : result (list string) :=
  if decide (url = errors_txt_url "REL9_1_STABLE") then Ok sample_91
  else if decide (url = errors_txt_url "REL_10_STABLE") then Ok sample_10
  else Raise (URLError url).

(** The locals of the parser after the section line of class 22. *)
Definition sample_state : locals :=
  Locals [("22", "Class 22 - Data Exception")] [] (Some "22").

(** A web with the same short document for every release. *)
Definition steady_web (url : string) : result (list string) :=
  Ok [ "Section: Class 22 - Data Exception" +:+ nl;
       "22000    E    ERRCODE_DATA_EXCEPTION    data_exception" +:+ nl;
       "22001    E    ERRCODE_STRING_DATA_RIGHT_TRUNCATION    string_data_right_truncation" +:+ nl ].

(** A web whose documents start with an error line. *)
Definition headless_web (url : string) : result (list string) :=
  Ok [ "# no section line yet" +:+ nl; nl;
       "22000    E    ERRCODE_DATA_EXCEPTION    data_exception" +:+ nl ].

(** A target file with the marker, and a file without it. *)
Definition sample_fs : filesystem :=
  fun path =>
    if decide (path = "errorcodes.py") then
      Some ("# the module" +:+ nl +:+ "# autogenerated data: do not edit below this point."
              +:+ nl +:+ "OLD = '0'" +:+ nl)
    else if decide (path = "README") then Some ("no marker here" +:+ nl)
    else None.

(** A web whose documents have a line with an unknown severity letter. *)
Definition broken_web (url : string) : result (list string) :=
  Ok [ "Section: Class 22 - Data Exception" +:+ nl;
       "22000    X    ERRCODE_DATA_EXCEPTION    data_exception" +:+ nl ].

(** ** The name of a class constant, in words *)

(** The text after the first occurrence of [sep], if [sep] occurs. *)
Definition after_first (sep s : string) : option string :=
  snd <$> Py.partition sep s.

(** The text before the first occurrence of [sep], all of [s] if there is
    none. *)
Definition before_first (sep s : string) : string :=
  match Py.partition sep s with
  | Some (b, _) => b
  | None => s
  end.

(** Trimmed, with spaces and slashes replaced by underscores, in upper
    case. *)
Definition normalise (name : string) : string :=
  Py.upper (Py.replace "/" "_" (Py.replace " " "_" (Py.strip name))).

(** The identifier as the specification words it: all the text after the
    first [" - "], cut at the first parenthesis. *)
Definition class_ident_spec (label : string) : option string :=
  t ← after_first " - " label;
  Some ("CLASS_" +:+ normalise (before_first "(" t)).

(** The identifier of the line that [generate_module_data] yields for a
    class: [CLASS_] and the text that [class_const] computes. *)
Definition class_ident (label : string) : result string :=
  err ← class_const label; Ok ("CLASS_" +:+ err).

(** ** The shape of the generated block *)

(** Ascending order of the keys, without ties. *)
Definition ascending (items : list (string * string)) : Prop :=
  StronglySorted (fun x y => String.compare x.1 y.1 = Lt) items.

(** The errors of a class, none when the table does not have the class. *)
Definition inner_of (errors : errtable) (c : string) : dict string :=
  default [] (dict_get errors c).

(** The lines of the section of one class. *)
Definition section_of (errors : errtable) (item : string * string) : list string :=
  "" :: ("# " +:+ item.2) :: (error_line <$> sorted (inner_of errors item.1)).

(** Every label of the table has a [" - "], so that [class_const] returns. *)
Definition labels_ok (classes : dict string) : Prop :=
  ∀ c l, (c, l) ∈ classes → ∃ err, class_const l = Ok err.

(** The declaration of one class constant and of one error. *)
Definition class_decl (item : string * string) (decl : string) : Prop :=
  ∃ ident, class_ident item.2 = Ok ident ∧ decl = ident +:+ " = " +:+ Py.repr item.1.

(** The section of one class: an empty line, the label in a comment, the
    errors of the class by ascending code. *)
Definition class_section (errors : errtable) (item : string * string)
    (sec : list string) : Prop :=
  ∃ es,
    es ≡ₚ inner_of errors item.1 ∧ ascending es
    ∧ sec = "" :: ("# " +:+ item.2) :: ((fun e => e.2 +:+ " = " +:+ Py.repr e.1) <$> es).

(** The same tables, filled in two different orders. *)
Definition tables_a : dict string * errtable :=
  ([("22", "Class 22 - Data Exception"); ("08", "Class 08 - Connection Exception")],
   [("22", [("22012", "DIVISION_BY_ZERO"); ("22000", "DATA_EXCEPTION")])]).

Definition tables_b : dict string * errtable :=
  ([("08", "Class 08 - Connection Exception"); ("22", "Class 22 - Data Exception")],
   [("08", []); ("22", [("22000", "DATA_EXCEPTION"); ("22012", "DIVISION_BY_ZERO")])]).

(** ** Further notions: documents, events, shapes of the entries *)

(** Text that [decode("ascii")] accepts. *)
Definition is_ascii (s : string) : Prop :=
  Py.all (fun a => (Py.code a <? 128)%N) s = true.

(** The lines of the section shape: [Section: Class xx - text] with two
    characters [xx] and a text, all without a newline. *)
Definition section_shape (line cls label : string) : Prop :=
  ∃ a b text,
    cls = String a (String b "")
    ∧ label = "Class " +:+ cls +:+ " - " +:+ text
    ∧ line = "Section: " +:+ label
    ∧ text ≠ ""
    ∧ Py.all (fun c => negb (Py.is_lf c)) (String a (String b text)) = true.

(** The document of [version] defines error [e] of class [c] with label
    [l]; it gives class [c] the label [l]. *)
Definition defines (urlopen : string → result (list string))
    (version c e l : string) : Prop :=
  ∃ t, parse_version urlopen version = Ok t ∧ lookup2 t.2 c e = Some l.

Definition labels_class (urlopen : string → result (list string))
    (version c l : string) : Prop :=
  ∃ t, parse_version urlopen version = Ok t ∧ dict_get t.1 c = Some l.

(** The events of one iteration of [fetch_errors]: the version on the
    standard error stream, then the request for its document if the version
    has a tag. *)
Definition version_events (version : string) : list event :=
  Stderr version ::
  match version_tag version with
  | Ok tag => [UrlOpen (errors_txt_url tag)]
  | Raise _ => []
  end.

(** A web whose documents have no section line for class 22. *)
Definition class08_web (url : string) : result (list string) :=
  Ok [ "Section: Class 08 - Connection Exception" +:+ nl;
       "08000    E    ERRCODE_CONNECTION_EXCEPTION    connection_exception" +:+ nl ].

(** A web whose documents have an octet above 127 in a comment. *)
Definition latin1_web (url : string) : result (list string) :=
  Ok [ "Section: Class 22 - Data Exception" +:+ nl;
       "22000 E ERRCODE_DATA_EXCEPTION data_exception # caf" +:+ String "233" nl ].

(** A class of the table: a code of two characters under a label that
    repeats the code. *)
Definition class_entry_ok (c l : string) : Prop :=
  String.length c = 2 ∧ ∃ text, text ≠ "" ∧ l = "Class " +:+ c +:+ " - " +:+ text.

(** An error of the table: a code of five characters under a label in upper
    case. *)
Definition error_entry_ok (e l : string) : Prop :=
  String.length e = 5 ∧ l ≠ "" ∧ Py.upper l = l.

(** The tables of a parser state, as the loop keeps them: classes and
    errors of the right shape, the current class and every class with
    errors in the table of classes. *)
Definition classes_ok (cl : dict string) : Prop :=
  ∀ c l, dict_get cl c = Some l → class_entry_ok c l.

Definition errors_ok (er : errtable) : Prop :=
  ∀ c e l, lookup2 er c e = Some l → error_entry_ok e l.

Definition shape_inv (st : locals) : Prop :=
  classes_ok (classes st) ∧ errors_ok (errors st)
  ∧ (∀ c, class_ st = Some c → is_Some (dict_get (classes st) c))
  ∧ (∀ c e l, lookup2 (errors st) c e = Some l → is_Some (dict_get (classes st) c)).

(** Text without a newline. *)
Definition no_lf (s : string) : Prop :=
  Py.all (fun a => negb (Py.is_lf a)) s = true.

(** Text without an end of line: no line feed, no carriage return. *)
Definition no_eol (s : string) : Prop :=
  Py.all (fun a => negb (Py.is_lf a) && negb (Builtins.is_cr a)) s = true.

(** A target file with all three ends of line. *)
Definition mixed_fs : filesystem :=
  fun path =>
    if decide (path = "errorcodes.py") then
      Some ("# the module" +:+ String "013" ("# autogenerated data" +:+ String "013" nl)
              +:+ "OLD = '0'" +:+ nl)
    else None.

(** A table of classes with a label that has no [" - "]. *)
Definition odd_classes : dict string :=
  [("08", "Class 08 - Connection Exception"); ("22", "Class 22: Data Exception")].

(** * Properties *)

(** ** The two patterns on lines of errcodes.txt *)

Example section_re_ex :
  Re.matches 2 section_re "Section: Class 22 - Data Exception"
  = Some [Some "Class 22 - Data Exception"; Some "22"].
Proof. reflexivity. Qed.

Example error_re_ex1 :
  Re.matches 3 error_re "22001    E    ERRCODE_STRING_DATA_RIGHT_TRUNCATION      string_data_right_truncation"
  = Some [Some "22001"; Some "STRING_DATA_RIGHT_TRUNCATION"; Some "string_data_right_truncation"].
Proof. reflexivity. Qed.

Example error_re_ex2 :
  Re.matches 3 error_re "0100C    W    ERRCODE_WARNING_DYNAMIC_RESULT_SETS_RETURNED"
  = Some [Some "0100C"; Some "WARNING_DYNAMIC_RESULT_SETS_RETURNED"; None].
Proof. reflexivity. Qed.

Example error_re_ex3 :
  Re.matches 3 error_re "22001 E ERRCODE_X y z" = None.
Proof. reflexivity. Qed.


(** ** Dictionaries *)

Section DictFacts.
Context {V : Type}.
Implicit Types (d o : dict V) (k : string) (v : V).

Lemma dict_get_set_eq d k v : dict_get (dict_set d k v) k = Some v.
Proof.
  induction d as [|[k' v'] d IH]; simpl.
  - by rewrite decide_True.
  - case_decide as Hk; simpl.
    + by rewrite decide_True.
    + by rewrite decide_False.
Qed.

Lemma dict_get_set_ne d k k' v :
  k ≠ k' → dict_get (dict_set d k v) k' = dict_get d k'.
Proof.
  intros Hne. induction d as [|[k0 v0] d IH]; simpl.
  - by rewrite decide_False.
  - case_decide as Hk; simpl.
    + subst k0. by rewrite !decide_False.
    + case_decide; [done | apply IH].
Qed.

Lemma dict_get_set d k k' v :
  dict_get (dict_set d k v) k' = if decide (k = k') then Some v else dict_get d k'.
Proof.
  case_decide as Hk.
  - subst. apply dict_get_set_eq.
  - by apply dict_get_set_ne.
Qed.

Lemma dict_get_elem_of d k v : dict_get d k = Some v → (k, v) ∈ d.
Proof.
  induction d as [|[k' v'] d IH]; simpl; [done|].
  case_decide; intros ?; simplify_eq; [left | right; auto].
Qed.

Lemma dict_get_None d k : dict_get d k = None ↔ k ∉ d.*1.
Proof.
  induction d as [|[k' v'] d IH]; simpl.
  - split; [intros _; apply not_elem_of_nil | done].
  - rewrite not_elem_of_cons. case_decide; subst.
    + split; [done | intros [? _]; done].
    + rewrite IH. split; [intros ?; split; [congruence | done] | intros [_ ?]; done].
Qed.

Lemma elem_of_dict_get d k v : dict_wf d → (k, v) ∈ d → dict_get d k = Some v.
Proof.
  unfold dict_wf. induction d as [|[k' v'] d IH]; simpl.
  - intros _ H. by apply elem_of_nil in H.
  - rewrite NoDup_cons. intros [Hnin Hnd] [Heq | Hin]%elem_of_cons.
    + simplify_eq. by rewrite decide_True.
    + case_decide; [subst | by apply IH].
      exfalso. apply Hnin. apply list_elem_of_fmap. by exists (k, v).
Qed.

Lemma dict_set_keys d k v :
  (dict_set d k v).*1 = if decide (k ∈ d.*1) then d.*1 else d.*1 ++ [k].
Proof.
  induction d as [|[k' v'] d IH]; csimpl; [done|].
  destruct (decide (k' = k)) as [->|Hk]; csimpl.
  - rewrite decide_True; [done | by left].
  - rewrite IH. destruct (decide (k ∈ d.*1)) as [Hin|Hin].
    + rewrite decide_True; [done | by right].
    + rewrite decide_False; [done |].
      rewrite not_elem_of_cons. split; [congruence | done].
Qed.

Lemma dict_set_wf d k v : dict_wf d → dict_wf (dict_set d k v).
Proof.
  unfold dict_wf. rewrite dict_set_keys. case_decide as Hin; [done|].
  intros Hnd. apply NoDup_app. split_and!; [done | | apply NoDup_singleton].
  intros x Hx ->%list_elem_of_singleton. done.
Qed.

Lemma dict_update_wf d o : dict_wf d → dict_wf (dict_update d o).
Proof.
  unfold dict_update. revert d.
  induction o as [|[k v] o IH]; intros d Hd; simpl; [done|].
  apply IH. by apply dict_set_wf.
Qed.

(** After [d.update(o)] a key of [o] has the value of [o], any other key
    keeps its value. *)
Lemma dict_get_update d o k :
  dict_wf o →
  dict_get (dict_update d o) k
  = match dict_get o k with Some v => Some v | None => dict_get d k end.
Proof.
  unfold dict_update, dict_wf. revert d.
  induction o as [|[k' v'] o IH]; intros d Hnd; [done|].
  rewrite fmap_cons in Hnd. apply NoDup_cons in Hnd as [Hnin Hnd].
  cbn [foldl]. rewrite IH by done. cbn [dict_get fst snd] in *.
  destruct (decide (k' = k)) as [->|Hk].
  - apply dict_get_None in Hnin. rewrite Hnin. apply dict_get_set_eq.
  - by rewrite dict_get_set_ne.
Qed.

End DictFacts.

Lemma dict_wf_nil {V} : dict_wf (@nil (string * V)).
Proof. apply NoDup_nil_2. Qed.

(** ** The table of errors *)

Lemma errtable_wf_nil : errtable_wf [].
Proof. split; [apply dict_wf_nil | intros c inner H; by apply elem_of_nil in H]. Qed.

Lemma elem_of_dict_set {V} (d : dict V) k v k' v' :
  (k', v') ∈ dict_set d k v → (k' = k ∧ v' = v) ∨ (k', v') ∈ d.
Proof.
  induction d as [|[k0 v0] d IH]; simpl.
  - intros Heq%list_elem_of_singleton. simplify_eq. by left.
  - case_decide; subst.
    + intros [?|?]%elem_of_cons; simplify_eq; [by left | right; by right].
    + intros [?|Hin]%elem_of_cons; simplify_eq; [right; by left |].
      destruct (IH Hin) as [?|?]; [by left | right; by right].
Qed.

Lemma errtable_wf_set (t : errtable) c inner :
  errtable_wf t → dict_wf inner → errtable_wf (dict_set t c inner).
Proof.
  intros [Ht Hin] Hi. split; [by apply dict_set_wf|].
  intros c' inner' [[-> ->]|H]%elem_of_dict_set; [done | by eapply Hin].
Qed.

Lemma dd_getitem_inner t c : (dd_getitem t c).1 = default [] (dict_get t c).
Proof. unfold dd_getitem. by destruct (dict_get t c). Qed.

Lemma dd_getitem_inner_wf t c : errtable_wf t → dict_wf (dd_getitem t c).1.
Proof.
  intros [_ Hin]. rewrite dd_getitem_inner.
  destruct (dict_get t c) as [inner|] eqn:E; simpl; [|apply dict_wf_nil].
  eapply Hin. by apply dict_get_elem_of.
Qed.

Lemma dd_getitem_wf t c : errtable_wf t → errtable_wf (dd_getitem t c).2.
Proof.
  intros Ht. unfold dd_getitem. destruct (dict_get t c); simpl; [done|].
  apply errtable_wf_set; [done | apply dict_wf_nil].
Qed.

(** Reading [errors[c]] adds no error to the table. *)
Lemma lookup2_dd_getitem t c c' e' : lookup2 (dd_getitem t c).2 c' e' = lookup2 t c' e'.
Proof.
  unfold dd_getitem, lookup2. destruct (dict_get t c) eqn:E; simpl; [done|].
  rewrite dict_get_set. case_decide; [subst; by rewrite E | done].
Qed.

Lemma dict_get_dd_getitem t c :
  dict_get (dd_getitem t c).2 c = Some (dd_getitem t c).1.
Proof.
  unfold dd_getitem. destruct (dict_get t c) eqn:E; simpl; [done|].
  apply dict_get_set_eq.
Qed.

Lemma dd_set_wf t c e l : errtable_wf t → errtable_wf (dd_set t c e l).
Proof.
  intros Ht. unfold dd_set.
  pose proof (dd_getitem_wf t c Ht). pose proof (dd_getitem_inner_wf t c Ht).
  destruct (dd_getitem t c) as [inner t']. simpl in *.
  apply errtable_wf_set; [done | by apply dict_set_wf].
Qed.

Lemma dd_update_wf t c cerrs : errtable_wf t → errtable_wf (dd_update t c cerrs).
Proof.
  intros Ht. unfold dd_update.
  pose proof (dd_getitem_wf t c Ht). pose proof (dd_getitem_inner_wf t c Ht).
  destruct (dd_getitem t c) as [inner t']. simpl in *.
  apply errtable_wf_set; [done | by apply dict_update_wf].
Qed.

(** [errors[c][e] = l] writes one entry and leaves every other one. *)
Lemma lookup2_dd_set t c e l c' e' :
  lookup2 (dd_set t c e l) c' e'
  = if decide (c = c' ∧ e = e') then Some l else lookup2 t c' e'.
Proof.
  unfold dd_set.
  pose proof (lookup2_dd_getitem t c c' e') as Hl.
  pose proof (dict_get_dd_getitem t c) as Hg.
  destruct (dd_getitem t c) as [inner t']. simpl in *.
  rewrite <- Hl. unfold lookup2. rewrite dict_get_set.
  destruct (decide (c = c')) as [->|Hc]; simpl.
  - rewrite Hg. simpl. rewrite dict_get_set.
    destruct (decide (e = e')) as [->|He].
    + by rewrite decide_True.
    + rewrite decide_False; [done | intros [_ ?]; done].
  - rewrite decide_False; [done | intros [? _]; done].
Qed.

Lemma lookup2_dd_update t c cerrs c' e' :
  dict_wf cerrs →
  lookup2 (dd_update t c cerrs) c' e'
  = if decide (c = c')
    then match dict_get cerrs e' with Some l => Some l | None => lookup2 t c' e' end
    else lookup2 t c' e'.
Proof.
  intros Hw. unfold dd_update.
  pose proof (lookup2_dd_getitem t c c' e') as Hl.
  pose proof (dict_get_dd_getitem t c) as Hg.
  destruct (dd_getitem t c) as [inner t']. simpl in *.
  rewrite <- Hl. unfold lookup2. rewrite dict_get_set.
  destruct (decide (c = c')) as [->|Hc]; simpl; [|done].
  rewrite Hg. simpl. by rewrite dict_get_update.
Qed.

Lemma lookup2_cons (t : errtable) c1 cerrs c e :
  lookup2 ((c1, cerrs) :: t) c e
  = if decide (c1 = c) then dict_get cerrs e else lookup2 t c e.
Proof. unfold lookup2. cbn [dict_get]. by case_decide. Qed.

Lemma merge_errors_wf errors e1 : errtable_wf errors → errtable_wf (merge_errors errors e1).
Proof.
  unfold merge_errors. revert errors.
  induction e1 as [|[c cerrs] e1 IH]; intros errors Hw; simpl; [done|].
  apply IH. by apply dd_update_wf.
Qed.

Lemma lookup2_merge_errors errors e1 c e :
  errtable_wf e1 →
  lookup2 (merge_errors errors e1) c e
  = match lookup2 e1 c e with Some l => Some l | None => lookup2 errors c e end.
Proof.
  unfold merge_errors. revert errors.
  induction e1 as [|[c1 cerrs] e1 IH]; intros errors [Hnd Hin]; [done|].
  unfold dict_wf in Hnd. rewrite fmap_cons in Hnd.
  apply NoDup_cons in Hnd as [Hnin Hnd]. cbn [foldl fst snd] in *.
  rewrite IH; last first.
  { split; [done | intros c' i' H; eapply Hin; by right]. }
  assert (Hc : dict_wf cerrs) by (eapply Hin; by left).
  rewrite lookup2_dd_update, lookup2_cons by done.
  destruct (decide (c1 = c)) as [->|Hne]; [|done].
  apply dict_get_None in Hnin. unfold lookup2 at 1. by rewrite Hnin.
Qed.

(** ** Strings *)

Lemma app_nil_l_str (s : string) : "" +:+ s = s.
Proof. reflexivity. Qed.

Lemma app_cons_str a (s t : string) : String a s +:+ t = String a (s +:+ t).
Proof. reflexivity. Qed.

Lemma app_nil_r_str (s : string) : s +:+ "" = s.
Proof. induction s as [|a s IH]; [done|]. by rewrite app_cons_str, IH. Qed.

Lemma app_assoc_str (s1 s2 s3 : string) : (s1 +:+ s2) +:+ s3 = s1 +:+ s2 +:+ s3.
Proof. induction s1 as [|a s1 IH]; [done|]. by rewrite !app_cons_str, IH. Qed.

Lemma length_app_str (s1 s2 : string) :
  String.length (s1 +:+ s2) = String.length s1 + String.length s2.
Proof. induction s1 as [|a s1 IH]; [done|]. rewrite app_cons_str. simpl. by rewrite IH. Qed.

Lemma all_app (p : ascii → bool) (s1 s2 : string) :
  Py.all p (s1 +:+ s2) = Py.all p s1 && Py.all p s2.
Proof.
  induction s1 as [|a s1 IH]; [done|].
  rewrite app_cons_str. simpl. rewrite <- andb_assoc. by f_equal.
Qed.

(** ** The matcher is sound for the declarative reading of the patterns *)

Lemma strip_prefix_Some p s rest : Re.strip_prefix p s = Some rest → s = p +:+ rest.
Proof.
  revert s. induction p as [|a p IH]; intros [|b s]; simpl; try done.
  - by intros [= <-].
  - by intros [= <-].
  - destruct (Ascii.eqb_spec a b) as [->|]; [|done]. intros H.
    by rewrite app_cons_str, <- (IH _ H).
Qed.

Lemma strip_prefix_app p rest : Re.strip_prefix p (p +:+ rest) = Some rest.
Proof.
  induction p as [|a p IH]; [by destruct rest|].
  rewrite app_cons_str. simpl. by rewrite Ascii.eqb_refl.
Qed.

Lemma plus_sound c s k gf :
  Re.plus c s k = Some gf →
  ∃ w rest, s = w +:+ rest ∧ w ≠ "" ∧ Py.all (Re.cmatch c) w = true ∧ k w rest = Some gf.
Proof.
  revert k. induction s as [|a s IH]; intros k; simpl; [done|].
  destruct (Re.cmatch c a) eqn:Ha; [|done].
  destruct (Re.plus c s _) as [g1|] eqn:E.
  - intros [= ->]. apply IH in E as (w & rest & -> & _ & Hall & Hk).
    exists (String a w), rest. simpl. by rewrite Ha, Hall.
  - intros Hk. exists (String a ""), s. simpl. by rewrite Ha.
Qed.

Theorem run_sound r s g k gf :
  Re.run r s g k = Some gf →
  ∃ w rest g', s = w +:+ rest ∧ denote r w rest g g' ∧ k w rest g' = Some gf.
Proof.
  revert s g k. induction r as [p|c|c|r1 IH1 r2 IH2|r1 IH1 r2 IH2|r IH|i r IH|];
    intros s g k; simpl.
  - destruct (Re.strip_prefix p s) as [rest|] eqn:E; [|done].
    intros Hk. apply strip_prefix_Some in E. exists p, rest, g. eauto using denote.
  - destruct s as [|a s]; [done|]. destruct (Re.cmatch c a) eqn:Ha; [|done].
    intros Hk. exists (String a ""), s, g. eauto using denote.
  - intros (w & rest & -> & Hne & Hall & Hk)%plus_sound.
    exists w, rest, g. eauto using denote.
  - intros (w1 & s1 & g1 & -> & H1 & (w2 & s2 & g2 & -> & H2 & Hk)%IH2)%IH1.
    exists (w1 +:+ w2), s2, g2. rewrite app_assoc_str. eauto using denote.
  - destruct (Re.run r1 s g k) as [g1|] eqn:E.
    + intros [= ->]. apply IH1 in E as (w & rest & g' & -> & H & Hk).
      exists w, rest, g'. eauto using denote.
    + intros (w & rest & g' & -> & H & Hk)%IH2. exists w, rest, g'. eauto using denote.
  - destruct (Re.run r s g k) as [g1|] eqn:E.
    + intros [= ->]. apply IH in E as (w & rest & g' & -> & H & Hk).
      exists w, rest, g'. eauto using denote.
    + intros Hk. exists "", s, g. eauto using denote.
  - intros (w & rest & g' & -> & H & Hk)%IH.
    exists w, rest, (<[i := Some w]> g'). eauto using denote.
  - destruct s as [|a [|b s]]; try done.
    + intros Hk. exists "", "", g. eauto using denote.
    + destruct (Py.is_lf a) eqn:Ha; [|done].
      apply Ascii.eqb_eq in Ha as ->.
      intros Hk. exists "", (String "010" ""), g. eauto using denote.
Qed.

Ltac invert_denote :=
  repeat match goal with
    | H : denote (Re.Seq _ _) _ _ _ _ |- _ => inversion H; subst; clear H
    | H : denote (Re.Lit _) _ _ _ _ |- _ => inversion H; subst; clear H
    | H : denote (Re.One _) _ _ _ _ |- _ => inversion H; subst; clear H
    | H : denote (Re.Plus _) _ _ _ _ |- _ => inversion H; subst; clear H
    | H : denote (Re.Alt _ _) _ _ _ _ |- _ => inversion H; subst; clear H
    | H : denote (Re.Opt _) _ _ _ _ |- _ => inversion H; subst; clear H
    | H : denote (Re.Group _ _) _ _ _ _ |- _ => inversion H; subst; clear H
    | H : denote Re.Eol _ _ _ _ |- _ => inversion H; subst; clear H
    end.

(** A line that [section_re] matches is [Section: Class xx - text]; group 1
    is the label [Class xx - text], without any text after a newline, and
    group 2 the two characters [xx]. *)
Lemma section_groups line g :
  Re.matches 2 section_re line = Some g →
  ∃ a b text rest,
    let cls := String a (String b "") in
    g = [Some ("Class " +:+ cls +:+ " - " +:+ text); Some cls]
    ∧ text ≠ ""
    ∧ line = "Section: Class " +:+ cls +:+ " - " +:+ text +:+ rest.
Proof.
  unfold Re.matches. intros (w & rest & g' & -> & H & [= <-])%run_sound.
  unfold section_re in H. cbn [Re.seq replicate] in H. invert_denote.
  match goal with
  | Ha : Re.cmatch _ ?a = true, Hb : Re.cmatch _ ?b = true, Hw : ?w ≠ "" |- _ =>
      exists b, a, w, rest
  end.
  by split_and!.
Qed.

(** Inversion of [denote], one constructor of the pattern at a time. *)

Lemma denote_seq_inv r1 r2 w rest g g2 :
  denote (Re.Seq r1 r2) w rest g g2 →
  ∃ w1 w2 g1, w = w1 +:+ w2 ∧ denote r1 w1 (w2 +:+ rest) g g1 ∧ denote r2 w2 rest g1 g2.
Proof. inversion 1; subst. eauto 10. Qed.

Lemma denote_group_inv i r w rest g g2 :
  denote (Re.Group i r) w rest g g2 →
  ∃ g1, g2 = <[i := Some w]> g1 ∧ denote r w rest g g1.
Proof. inversion 1; subst. eauto. Qed.

Lemma denote_plus_inv c w rest g g2 :
  denote (Re.Plus c) w rest g g2 → g2 = g ∧ w ≠ "" ∧ Py.all (Re.cmatch c) w = true.
Proof. inversion 1; subst. eauto. Qed.

Lemma denote_one_inv c w rest g g2 :
  denote (Re.One c) w rest g g2 → ∃ a, g2 = g ∧ w = String a "" ∧ Re.cmatch c a = true.
Proof. inversion 1; subst. eauto. Qed.

Lemma denote_lit_inv p w rest g g2 :
  denote (Re.Lit p) w rest g g2 → g2 = g ∧ w = p.
Proof. inversion 1; subst. eauto. Qed.

Lemma denote_alt_inv r1 r2 w rest g g2 :
  denote (Re.Alt r1 r2) w rest g g2 → denote r1 w rest g g2 ∨ denote r2 w rest g g2.
Proof. inversion 1; subst; eauto. Qed.

Lemma denote_opt_inv r w rest g g2 :
  denote (Re.Opt r) w rest g g2 → denote r w rest g g2 ∨ (g2 = g ∧ w = "").
Proof. inversion 1; subst; eauto. Qed.

Lemma denote_eol_inv w rest g g2 :
  denote Re.Eol w rest g g2 → g2 = g ∧ w = "" ∧ (rest = "" ∨ rest = String "010" "").
Proof. inversion 1; subst; eauto. Qed.

(** ** The shape of an error line *)

Lemma error_groups line g :
  Re.matches 3 error_re line = Some g →
  ∃ errcode macro spec,
    g = [Some errcode; Some macro; spec] ∧ error_shape line errcode macro spec.
Proof.
  unfold Re.matches. intros (w & rest & g' & -> & H & [= <-])%run_sound.
  unfold error_re in H. cbn [Re.seq replicate] in H.
  apply denote_seq_inv in H as (errcode & w1 & g1 & -> & Hcode & H).
  apply denote_group_inv in Hcode as (g0 & -> & Hcode).
  assert (g0 = [None; None; None] ∧ String.length errcode = 5
          ∧ Py.all (fun a => negb (Py.is_lf a)) errcode = true) as (-> & Hlen & Hnl).
  { repeat (apply denote_seq_inv in Hcode as (? & ? & ? & -> & (? & -> & -> & ?)%denote_one_inv & Hcode)).
    apply denote_one_inv in Hcode as (? & -> & -> & ?).
    simpl in *. by repeat match goal with H : negb _ = true |- _ => rewrite H; clear H end. }
  apply denote_seq_inv in H as (ws1 & w2 & ? & -> & (-> & Hws1)%denote_plus_inv & H).
  apply denote_seq_inv in H as (sev & w3 & g2 & -> & Hsev & H).
  assert (g2 = <[0:=Some errcode]> [None; None; None] ∧ sev ∈ ["E"; "W"; "S"]) as (-> & Hs).
  { apply denote_alt_inv in Hsev as [(-> & ->)%denote_lit_inv|Hsev].
    { split; [done | by left]. }
    apply denote_alt_inv in Hsev as [(-> & ->)%denote_lit_inv|(-> & ->)%denote_lit_inv];
      (split; [done | by repeat first [left | right]]). }
  apply denote_seq_inv in H as (ws2 & w4 & ? & -> & (-> & Hws2)%denote_plus_inv & H).
  apply denote_seq_inv in H as (? & w5 & ? & -> & (-> & ->)%denote_lit_inv & H).
  apply denote_seq_inv in H as (macro & w6 & ? & -> & (? & -> & (-> & Hmacro)%denote_plus_inv)%denote_group_inv & H).
  apply denote_seq_inv in H as (tail & w7 & g3 & -> & Hopt & (-> & -> & Heol)%denote_eol_inv).
  rewrite app_nil_l_str in Hopt.
  apply denote_opt_inv in Hopt as [Hopt|(-> & ->)].
  - apply denote_seq_inv in Hopt as (ws3 & s & ? & -> & (-> & Hws3)%denote_plus_inv & Hopt).
    apply denote_group_inv in Hopt as (? & -> & (-> & Hspec)%denote_plus_inv).
    exists errcode, macro, (Some s). split; [done|].
    exists ws1, sev, ws2, (ws3 +:+ s), rest.
    split_and!; try done.
    + by rewrite !app_nil_r_str, !app_assoc_str.
    + by exists ws3.
  - exists errcode, macro, None. split; [done|].
    exists ws1, sev, ws2, "", rest.
    split_and!; try done.
    by rewrite !app_nil_r_str, !app_assoc_str.
Qed.

(** [c+] takes the whole run of [c] when the rest of the pattern accepts
    what follows. *)
Lemma plus_greedy c w rest k gf :
  w ≠ "" → Py.all (Re.cmatch c) w = true →
  match rest with "" => True | String a _ => Re.cmatch c a = false end →
  k w rest = Some gf →
  Re.plus c (w +:+ rest) k = Some gf.
Proof.
  revert k. induction w as [|a w IH]; intros k Hne Hall Hrest Hk; [done|].
  rewrite app_cons_str. simpl in *. apply andb_true_iff in Hall as [Ha Hall].
  rewrite Ha. destruct w as [|b w].
  - rewrite app_nil_l_str.
    destruct rest as [|r rest]; simpl; [done|]. by rewrite Hrest.
  - by rewrite (IH (fun w rest => k (String a w) rest)).
Qed.

Lemma token_head w rest :
  token w →
  match w +:+ rest with "" => True | String a _ => Re.cmatch Re.Space a = false end.
Proof.
  intros [Hne Hall]. destruct w as [|a w]; [done|].
  rewrite app_cons_str. simpl in *. apply andb_true_iff in Hall as [Ha _].
  by apply negb_true_iff.
Qed.

Lemma spaces_head w rest :
  spaces w →
  match w +:+ rest with "" => True | String a _ => Re.cmatch Re.NonSpace a = false end.
Proof.
  intros [Hne Hall]. destruct w as [|a w]; [done|].
  rewrite app_cons_str. simpl in *. apply andb_true_iff in Hall as [Ha _].
  by rewrite Ha.
Qed.

Lemma error_shape_matches line errcode macro spec :
  error_shape line errcode macro spec →
  Re.matches 3 error_re line = Some [Some errcode; Some macro; spec].
Proof.
  intros (ws1 & sev & ws2 & tail & eol & -> & Hlen & Hnl & Hws1 & Hsev & Hws2 & Hmacro & Hspec & Heol).
  destruct errcode as [|a1 [|a2 [|a3 [|a4 [|a5 [|]]]]]]; try done.
  simpl in Hnl. repeat (apply andb_true_iff in Hnl as [?%negb_true_iff Hnl]).
  unfold Re.matches, error_re. cbn [Re.seq replicate Re.run].
  rewrite !app_cons_str, app_nil_l_str. cbn [Re.cmatch].
  repeat match goal with H : Py.is_lf _ = false |- _ => rewrite H; clear H end.
  cbn [negb]. destruct Hws1 as [? ?], Hws2 as [? ?], Hmacro as [? ?].
  assert (Hsev' : sev = "E" ∨ sev = "W" ∨ sev = "S").
  { rewrite !elem_of_cons in Hsev. destruct Hsev as [?|[?|[?|Hn]]]; auto.
    by apply elem_of_nil in Hn. }
  assert (Htail : Re.plus Re.NonSpace (macro +:+ tail +:+ eol)
            (λ w rest3 : string,
               match
                 Re.plus Re.Space rest3
                   (λ _ rest4 : string,
                      Re.plus Re.NonSpace rest4
                        (λ w0 rest5 : string,
                           Re.run Re.Eol rest5
                             (<[2:=Some w0]> (<[1:=Some w]>
                                (<[0:=Some (String a1 (String a2 (String a3 (String a4 (String a5 "")))))]>
                                   [None; None; None])))
                             (λ _ _ g, Some g)))
               with
               | Some g' => Some g'
               | None =>
                   Re.run Re.Eol rest3
                     (<[1:=Some w]>
                        (<[0:=Some (String a1 (String a2 (String a3 (String a4 (String a5 "")))))]>
                           [None; None; None]))
                     (λ _ _ g, Some g)
               end)
          = Some [Some (String a1 (String a2 (String a3 (String a4 (String a5 ""))))); Some macro; spec]).
  { destruct spec as [s|].
    - destruct Hspec as (ws3 & -> & [? ?] & [? ?]).
      rewrite app_assoc_str. apply plus_greedy; try done.
      { by apply spaces_head. }
      rewrite (plus_greedy Re.Space ws3 (s +:+ eol) _
                 [Some (String a1 (String a2 (String a3 (String a4 (String a5 ""))))); Some macro; Some s]);
        try done.
      { by apply token_head. }
      apply plus_greedy; try done.
      { by destruct Heol as [->| ->]. }
      by destruct Heol as [->| ->].
    - subst tail. rewrite app_nil_l_str. apply plus_greedy; try done.
      { by destruct Heol as [->| ->]. }
      by destruct Heol as [->| ->]. }
  apply plus_greedy; try done.
  { by destruct Hsev' as [->|[->| ->]]. }
  destruct Hsev' as [->|[->| ->]];
    rewrite app_cons_str, app_nil_l_str;
    cbv beta; simpl (Re.strip_prefix _ _); cbv beta iota;
    (erewrite (plus_greedy Re.Space ws2); [reflexivity | done | done | done |]);
    simpl (Re.strip_prefix _ _); cbv beta iota; exact Htail.
Qed.

(** ** One line of a document *)

Lemma error_shape_nonempty line errcode macro spec :
  error_shape line errcode macro spec → line ≠ "".
Proof.
  intros (ws1 & sev & ws2 & tail & eol & -> & Hlen & _).
  by destruct errcode.
Qed.

Lemma error_shape_spec_nonempty line errcode macro s :
  error_shape line errcode macro (Some s) → s ≠ "".
Proof.
  intros (ws1 & sev & ws2 & tail & eol & _ & _ & _ & _ & _ & _ & _ & Hs & _).
  by destruct Hs as (_ & _ & _ & [Hne _]).
Qed.

(** A line of the error shape is no section line: its sixth character is a
    space, not the [o] of [Section]. *)
Lemma error_shape_not_section line errcode macro spec :
  error_shape line errcode macro spec → Re.matches 2 section_re line = None.
Proof.
  intros (ws1 & sev & ws2 & tail & eol & -> & Hlen & _ & [Hne Hsp] & _).
  destruct (Re.matches 2 section_re _) as [g|] eqn:E; [exfalso | done].
  apply section_groups in E as (a & b & text & rest & _ & _ & E).
  destruct errcode as [|a1 [|a2 [|a3 [|a4 [|a5 [|]]]]]]; try done.
  destruct ws1 as [|w ws1]; [done|].
  rewrite !app_cons_str, app_nil_l_str in E.
  injection E as _ _ _ _ _ ->. done.
Qed.

Lemma parse_line_blank st raw :
  cleaned raw = Ok "" → parse_line st raw = Ok st.
Proof. intros H. unfold parse_line. by rewrite H. Qed.

Lemma parse_line_error st raw line errcode macro spec :
  cleaned raw = Ok line →
  error_shape line errcode macro spec →
  parse_line st raw
  = match spec with
    | None => Ok st
    | Some s => store_error st errcode (Py.upper s)
    end.
Proof.
  intros Hc Hs. unfold parse_line. rewrite Hc. simpl.
  rewrite decide_False by (by eapply error_shape_nonempty).
  rewrite (error_shape_not_section _ _ _ _ Hs), (error_shape_matches _ _ _ _ Hs).
  destruct spec as [[|a s]|]; [|done|done].
  by apply error_shape_spec_nonempty in Hs.
Qed.

Lemma parse_line_malformed st raw line :
  cleaned raw = Ok line → line ≠ "" →
  Re.matches 2 section_re line = None →
  Re.matches 3 error_re line = None →
  parse_line st raw = Raise (unexpected_line line).
Proof.
  intros Hc Hne H1 H2. unfold parse_line. rewrite Hc. simpl.
  by rewrite decide_False, H1, H2.
Qed.

Lemma parse_line_section st raw line g :
  cleaned raw = Ok line →
  Re.matches 2 section_re line = Some g →
  ∃ label cls,
    g = [Some label; Some cls]
    ∧ parse_line st raw = Ok (Locals (dict_set (classes st) cls label) (errors st) (Some cls)).
Proof.
  intros Hc Hm. unfold parse_line. rewrite Hc. simpl.
  pose proof (section_groups _ _ Hm) as (a & b & text & rest & -> & _ & ->).
  rewrite decide_False by done. rewrite Hm. eauto.
Qed.

(** ** A whole document *)

Lemma parse_line_inv st raw st' :
  parse_inv st → parse_line st raw = Ok st' → parse_inv st'.
Proof.
  intros [Hc He]. unfold parse_line, store_error.
  destruct (cleaned raw) as [line|]; simpl; [|done].
  repeat case_match; intros; simplify_eq; try done; split; simpl;
    auto using dict_set_wf, dd_set_wf.
Qed.

Lemma for_each_ext {A S} (f g : S → A → result S) st xs :
  (∀ st x, f st x = g st x) → Builtins.for_each f st xs = Builtins.for_each g st xs.
Proof.
  intros H. revert st. induction xs as [|x xs IH]; intros st; simpl; [done|].
  rewrite H. destruct (g st x); simpl; [apply IH | done].
Qed.

Section ForEach.
Context {A S : Type} (body : S → A → result S).

Lemma for_each_app st xs ys :
  Builtins.for_each body st (xs ++ ys)
  = st' ← Builtins.for_each body st xs; Builtins.for_each body st' ys.
Proof.
  revert st. induction xs as [|x xs IH]; intros st; simpl; [done|].
  destruct (body st x); simpl; [apply IH | done].
Qed.

Lemma for_each_inv (P : S → Prop) st xs st' :
  (∀ st x st', P st → body st x = Ok st' → P st') →
  P st → Builtins.for_each body st xs = Ok st' → P st'.
Proof.
  intros Hstep. revert st. induction xs as [|x xs IH]; intros st HP; simpl.
  - by intros [= <-].
  - destruct (body st x) eqn:E; simpl; [|done]. eauto.
Qed.

Lemma for_each_keep st xs :
  (∀ x, x ∈ xs → body st x = Ok st) → Builtins.for_each body st xs = Ok st.
Proof.
  induction xs as [|x xs IH]; intros H; simpl; [done|].
  rewrite H by left. simpl. apply IH. intros y Hy. apply H. by right.
Qed.

End ForEach.

Lemma parse_page_wf page t : parse_page page = Ok t → tables_wf t.
Proof.
  unfold parse_page.
  destruct (Builtins.for_each _ _ _) as [st|] eqn:E; simpl; [|done].
  intros [= <-]. eapply (for_each_inv parse_line parse_inv) in E; [done | | ].
  - intros ????. by apply parse_line_inv.
  - split; [apply dict_wf_nil | apply errtable_wf_nil].
Qed.

Lemma parse_version_wf urlopen v t : parse_version urlopen v = Ok t → tables_wf t.
Proof.
  unfold parse_version. destruct (version_tag v); simpl; [|done].
  destruct (urlopen _); simpl; [|done]. apply parse_page_wf.
Qed.

Lemma merge_version_wf acc p : tables_wf acc → tables_wf (merge_version acc p).
Proof.
  intros [Hc He]. split; simpl.
  - by apply dict_update_wf.
  - by apply merge_errors_wf, dd_set_wf.
Qed.

Section Fetch.
Variable urlopen : string → result (list string).

Lemma parse_errors_txt_result url :
  (parse_errors_txt urlopen url).2 = (page ← urlopen url; parse_page page).
Proof. unfold parse_errors_txt. simpl. by destruct (urlopen url). Qed.

Lemma parse_errors_txt_trace url : (parse_errors_txt urlopen url).1 = [UrlOpen url].
Proof. done. Qed.

Lemma fetch_version_result acc v :
  (fetch_version urlopen acc v).2
  = (p ← parse_version urlopen v; Ok (merge_version acc p)).
Proof.
  unfold fetch_version, parse_version.
  destruct (version_tag v) as [tag|]; simpl; [|done].
  unfold parse_page, mbind, io_bind. simpl.
  destruct (urlopen (errors_txt_url tag)) as [page|]; simpl; [|done].
  by destruct (Builtins.for_each _ _ _).
Qed.

Lemma io_for_each_result {A S} (body : S → A → io S) st xs :
  (io_for_each body st xs).2 = Builtins.for_each (fun st x => (body st x).2) st xs.
Proof.
  revert st. induction xs as [|x xs IH]; intros st; simpl; [done|].
  unfold mbind at 1, io_bind. destruct (body st x) as [tr [st'|e]]; simpl; [apply IH | done].
Qed.

(** The result of [fetch_errors] is a fold of [merge_version] over what the
    versions define, stopped by the first exception. *)
Lemma fetch_errors_result vs :
  (fetch_errors urlopen vs).2
  = Builtins.for_each
      (fun acc v => p ← parse_version urlopen v; Ok (merge_version acc p))
      ([], []) vs.
Proof.
  unfold fetch_errors. rewrite io_for_each_result.
  apply for_each_ext. intros acc v. apply fetch_version_result.
Qed.

Lemma fetch_errors_snoc vs v t :
  (fetch_errors urlopen (vs ++ [v])).2 = Ok t →
  ∃ acc p,
    (fetch_errors urlopen vs).2 = Ok acc
    ∧ parse_version urlopen v = Ok p
    ∧ t = merge_version acc p.
Proof.
  rewrite !fetch_errors_result, for_each_app.
  destruct (Builtins.for_each _ _ vs) as [acc|]; simpl; [|done].
  destruct (parse_version urlopen v) as [p|]; simpl; [|done].
  intros [= <-]. eauto.
Qed.

Lemma fetch_errors_wf vs t : (fetch_errors urlopen vs).2 = Ok t → tables_wf t.
Proof.
  rewrite fetch_errors_result. intros H.
  eapply (for_each_inv _ tables_wf) in H; [done | |].
  - intros acc v acc' Hacc. destruct (parse_version urlopen v); simpl; [|done].
    intros [= <-]. by apply merge_version_wf.
  - split; [apply dict_wf_nil | apply errtable_wf_nil].
Qed.

(** The merge completes when every version's document can be fetched and
    parsed. *)
Lemma fetch_errors_total vs :
  (∀ v, v ∈ vs → ∃ p, parse_version urlopen v = Ok p) →
  ∃ t, (fetch_errors urlopen vs).2 = Ok t.
Proof.
  rewrite fetch_errors_result.
  generalize (@nil (string * string), @nil (string * dict string)).
  induction vs as [|v vs IH]; intros acc H; simpl; [eauto|].
  destruct (H v) as [p ->]; [by left|]. simpl.
  apply IH. intros v' Hv'. apply H. by right.
Qed.

End Fetch.

(** ** The merge of the versions *)

Lemma classes_merge_version acc p k :
  tables_wf p →
  dict_get (merge_version acc p).1 k
  = match dict_get p.1 k with Some l => Some l | None => dict_get acc.1 k end.
Proof. intros [Hc _]. simpl. by apply dict_get_update. Qed.

(** After one iteration an error has the label of that version's document;
    an error that the document does not define keeps its label, but for
    22020 of class 22, which has been set to the fixed label. *)
Lemma errors_merge_version acc p c e :
  tables_wf p →
  lookup2 (merge_version acc p).2 c e
  = match lookup2 p.2 c e with
    | Some l => Some l
    | None =>
        if decide ("22" = c ∧ "22020" = e) then Some "INVALID_LIMIT_VALUE"
        else lookup2 acc.2 c e
    end.
Proof.
  intros [_ He]. simpl. by rewrite lookup2_merge_errors, lookup2_dd_set.
Qed.

(** C1, as the claim states it, fails: the document of the only version
    defines 22020 in class 22, and its label is the final one, not the fixed
    label. *)
Lemma legacy_injection_counterexample :
  ∃ cl er,
    (fetch_errors sample_web ["9.1"]).2 = Ok (cl, er)
    ∧ lookup2 er "22" "22020" = Some "INVALID_LIMIT"
    ∧ lookup2 er "22" "22020" ≠ Some "INVALID_LIMIT_VALUE".
Proof. eexists _, _. split; [vm_compute; reflexivity | by vm_compute]. Qed.

(** C1 (amended): after a merge of one or more versions that completes,
    class 22 has an entry for 22020; its label is the one that the document
    of the last version gives to 22020 in class 22, and the fixed label
    INVALID_LIMIT_VALUE when that document has none.  Every iteration sets
    the fixed label before it folds the errors of its version in. *)
Theorem legacy_injection urlopen vs v cl er :
  (fetch_errors urlopen (vs ++ [v])).2 = Ok (cl, er) →
  ∃ c_v e_v,
    parse_version urlopen v = Ok (c_v, e_v)
    ∧ lookup2 er "22" "22020"
      = Some (default "INVALID_LIMIT_VALUE" (lookup2 e_v "22" "22020")).
Proof.
  intros (acc & [c_v e_v] & _ & Hp & Ht)%fetch_errors_snoc.
  exists c_v, e_v. split; [done|].
  apply (f_equal snd) in Ht. simpl in Ht. subst er.
  rewrite (errors_merge_version acc (c_v, e_v)) by (by eapply parse_version_wf).
  cbn [snd]. by destruct (lookup2 e_v "22" "22020").
Qed.

Lemma legacy_injection_witness :
  ∃ cl er,
    (fetch_errors sample_web (["9.1"] ++ ["10"])).2 = Ok (cl, er)
    ∧ lookup2 er "22" "22020" = Some "INVALID_LIMIT_VALUE".
Proof.
  eexists _, _. split; [vm_compute; reflexivity|].
  edestruct (legacy_injection sample_web ["9.1"] "10") as (c_v & e_v & Hp & ->).
  { vm_compute. reflexivity. }
  vm_compute in Hp. by injection Hp as <- <-.
Defined.

(** C2: when the documents of two versions define the same error of the
    same class with different labels, the merge that ends with the later
    version has the later label; in the same way its table of classes has
    every class label of the later version, and within a document every
    section line overwrites the label of its class. *)
Theorem merge_override urlopen pre v1 mid v2 cl er c1 e1 c2 e2 c e l1 l2 :
  (fetch_errors urlopen (pre ++ v1 :: mid ++ [v2])).2 = Ok (cl, er) →
  parse_version urlopen v1 = Ok (c1, e1) →
  parse_version urlopen v2 = Ok (c2, e2) →
  lookup2 e1 c e = Some l1 →
  lookup2 e2 c e = Some l2 →
  l1 ≠ l2 →
  lookup2 er c e = Some l2
  ∧ (∀ k label, dict_get c2 k = Some label → dict_get cl k = Some label)
  ∧ (∀ st raw line g,
       cleaned raw = Ok line → Re.matches 2 section_re line = Some g →
       ∃ label cls st',
         g = [Some label; Some cls]
         ∧ parse_line st raw = Ok st'
         ∧ dict_get (classes st') cls = Some label).
Proof.
  intros Hf _ Hp2 _ Hl2 _.
  replace (pre ++ v1 :: mid ++ [v2]) with ((pre ++ v1 :: mid) ++ [v2]) in Hf
    by (by rewrite <- app_assoc).
  apply fetch_errors_snoc in Hf as (acc & p & _ & Hp & Ht).
  rewrite Hp2 in Hp. injection Hp as <-.
  pose proof (parse_version_wf _ _ _ Hp2) as Hwf.
  split_and!.
  - apply (f_equal snd) in Ht. simpl in Ht. subst er.
    rewrite (errors_merge_version acc (c2, e2)) by done. simpl. by rewrite Hl2.
  - intros k label Hk. apply (f_equal fst) in Ht. simpl in Ht. subst cl.
    rewrite (dict_get_update _ c2) by apply Hwf. by rewrite Hk.
  - intros st raw line g Hc Hm.
    destruct (parse_line_section st raw line g Hc Hm) as (label & cls & -> & ->).
    eexists _, _, _. split_and!; [done | done |]. simpl. apply dict_get_set_eq.
Qed.

Lemma merge_override_witness :
  ∃ cl er,
    (fetch_errors sample_web ([] ++ "9.1" :: [] ++ ["10"])).2 = Ok (cl, er)
    ∧ lookup2 er "22" "22001" = Some "STRING_TRUNCATION"
    ∧ dict_get cl "22" = Some "Class 22 - Data Exception (revised)".
Proof.
  eexists _, _. split; [vm_compute; reflexivity|].
  edestruct (merge_override sample_web [] "9.1" [] "10") as (He & Hc & _);
    [vm_compute; reflexivity | vm_compute; reflexivity | vm_compute; reflexivity
    | | | | split; [exact He | apply Hc]];
    [by vm_compute | by vm_compute | done | by vm_compute].
Defined.

(** C3, as the claim states it, fails for the one error that every iteration
    resets: release 9.1 defines 22020 in class 22, release 10 moves it to
    class 2F, and class 22 ends with the fixed label, not with the earlier
    one. *)
Lemma stale_duplicate_counterexample :
  ∃ c1 e1 c2 e2 cl er,
    parse_version sample_web "9.1" = Ok (c1, e1)
    ∧ parse_version sample_web "10" = Ok (c2, e2)
    ∧ lookup2 e1 "22" "22020" = Some "INVALID_LIMIT"
    ∧ lookup2 e2 "2F" "22020" = Some "MOVED_LIMIT"
    ∧ (fetch_errors sample_web ["9.1"; "10"]).2 = Ok (cl, er)
    ∧ lookup2 er "22" "22020" = Some "INVALID_LIMIT_VALUE"
    ∧ lookup2 er "22" "22020" ≠ Some "INVALID_LIMIT".
Proof.
  eexists _, _, _, _, _, _.
  split; [vm_compute; reflexivity|]. split; [vm_compute; reflexivity|].
  split; [by vm_compute|]. split; [by vm_compute|].
  split; [vm_compute; reflexivity|]. split; by vm_compute.
Qed.

(** C3 (amended): when the document of a version defines an error under
    class A and the document of the next version defines the same error
    under another class B and not under A, the merge that ends with these two
    has the error under A, with the earlier label, and under B, with the later
    one: nothing removes the entry of A.  The exception is 22020 in class 22,
    whose entry under A is the fixed label INVALID_LIMIT_VALUE. *)
Theorem stale_duplicate urlopen pre v1 v2 cl er c1 e1 c2 e2 a b e l1 l2 :
  (fetch_errors urlopen (pre ++ [v1; v2])).2 = Ok (cl, er) →
  parse_version urlopen v1 = Ok (c1, e1) →
  parse_version urlopen v2 = Ok (c2, e2) →
  lookup2 e1 a e = Some l1 →
  lookup2 e2 b e = Some l2 →
  a ≠ b →
  lookup2 e2 a e = None →
  lookup2 er a e
  = Some (if decide ("22" = a ∧ "22020" = e) then "INVALID_LIMIT_VALUE" else l1)
  ∧ lookup2 er b e = Some l2.
Proof.
  intros Hf Hp1 Hp2 Hl1 Hl2 Hab Hnone.
  replace (pre ++ [v1; v2]) with ((pre ++ [v1]) ++ [v2]) in Hf
    by (by rewrite <- app_assoc).
  apply fetch_errors_snoc in Hf as (acc2 & p2 & Hf & Hq2 & Ht).
  apply fetch_errors_snoc in Hf as (acc1 & p1 & _ & Hq1 & Ht1).
  rewrite Hp2 in Hq2. injection Hq2 as <-.
  rewrite Hp1 in Hq1. injection Hq1 as <-.
  pose proof (parse_version_wf _ _ _ Hp1) as Hwf1.
  pose proof (parse_version_wf _ _ _ Hp2) as Hwf2.
  apply (f_equal snd) in Ht. cbn [snd] in Ht. subst er acc2.
  rewrite !(errors_merge_version _ (c2, e2)) by done. cbn [snd].
  rewrite Hnone, Hl2. split; [|done].
  case_decide; [done|].
  rewrite (errors_merge_version _ (c1, e1)) by done. cbn [snd]. by rewrite Hl1.
Qed.

Lemma stale_duplicate_witness :
  ∃ cl er,
    (fetch_errors sample_web ([] ++ ["9.1"; "10"])).2 = Ok (cl, er)
    ∧ lookup2 er "22" "22P01" = Some "FLOATING_POINT_EXCEPTION"
    ∧ lookup2 er "2F" "22P01" = Some "FP_EXCEPTION".
Proof.
  eexists _, _. split; [vm_compute; reflexivity|].
  eapply (stale_duplicate sample_web [] "9.1" "10" _ _ _ _ _ _ "22" "2F" "22P01"
            "FLOATING_POINT_EXCEPTION" "FP_EXCEPTION");
    [vm_compute; reflexivity | vm_compute; reflexivity | vm_compute; reflexivity
    | by vm_compute | by vm_compute | done | by vm_compute].
Defined.

(** ** Error lines and malformed lines *)

(** C4: a line of the error shape that ends with a specification word
    yields exactly one pair, the five-character code and the word in upper
    case, which the loop stores under the class of the last section line:
    the table of errors gets this one entry and nothing else changes.  A line
    of the error shape without that word leaves the tables as they are.
    (With no section line yet the store has no class and raises.) *)
Theorem error_entry_parsed st raw line errcode macro spec :
  cleaned raw = Ok line →
  error_shape line errcode macro spec →
  Re.matches 3 error_re line = Some [Some errcode; Some macro; spec]
  ∧ match spec with
    | Some s =>
        parse_line st raw = store_error st errcode (Py.upper s)
        ∧ ∀ c, class_ st = Some c →
            ∃ st',
              store_error st errcode (Py.upper s) = Ok st'
              ∧ classes st' = classes st ∧ class_ st' = class_ st
              ∧ ∀ c' e',
                  lookup2 (errors st') c' e'
                  = if decide (c = c' ∧ errcode = e') then Some (Py.upper s)
                    else lookup2 (errors st) c' e'
    | None => parse_line st raw = Ok st
    end.
Proof.
  intros Hc Hs. split; [by apply error_shape_matches|].
  rewrite (parse_line_error st raw line errcode macro spec Hc Hs).
  destruct spec as [s|]; [|done]. split; [done|].
  intros c Hcls. unfold store_error. rewrite Hcls.
  eexists. split_and!; [done | done | done |].
  intros c' e'. simpl. apply lookup2_dd_set.
Qed.

Lemma error_entry_parsed_witness :
  ∃ st',
    parse_line sample_state
      ("22001  E  ERRCODE_STRING_DATA_RIGHT_TRUNCATION  string_data_right_truncation" +:+ nl)
    = Ok st'
    ∧ lookup2 (errors st') "22" "22001" = Some "STRING_DATA_RIGHT_TRUNCATION".
Proof.
  edestruct (error_entry_parsed sample_state
               ("22001  E  ERRCODE_STRING_DATA_RIGHT_TRUNCATION  string_data_right_truncation" +:+ nl)
               "22001  E  ERRCODE_STRING_DATA_RIGHT_TRUNCATION  string_data_right_truncation"
               "22001" "STRING_DATA_RIGHT_TRUNCATION" (Some "string_data_right_truncation"))
    as (_ & Hp & Hst).
  - by vm_compute.
  - exists "  ", "E", "  ", "  string_data_right_truncation", "".
    split_and!; try (by vm_compute); try (by left).
    exists "  ". split_and!; by vm_compute.
  - destruct (Hst "22" eq_refl) as (st' & Hs & _ & _ & Hl).
    exists st'. split; [by rewrite Hp|]. rewrite Hl. by vm_compute.
Defined.

(** C10: when the first line of a document that is not blank is an error
    line with a specification word, no section line has bound [class_], and
    [parse_errors_txt] ends with [UnboundLocalError], not with the
    [ValueError] of a malformed line. *)
Theorem entry_before_header urlopen url pre raw post line errcode macro s :
  urlopen url = Ok (pre ++ raw :: post) →
  (∀ x, x ∈ pre → cleaned x = Ok "") →
  cleaned raw = Ok line →
  error_shape line errcode macro (Some s) →
  (parse_errors_txt urlopen url).2 = Raise (UnboundLocalError "class_")
  ∧ ∀ l, (parse_errors_txt urlopen url).2 ≠ Raise (unexpected_line l).
Proof.
  intros Hu Hpre Hc Hs.
  assert ((parse_errors_txt urlopen url).2 = Raise (UnboundLocalError "class_")) as ->.
  { rewrite parse_errors_txt_result, Hu. simpl. unfold parse_page.
    rewrite for_each_app, (for_each_keep parse_line).
    - simpl. by rewrite (parse_line_error _ raw line errcode macro (Some s) Hc Hs).
    - intros x Hx. apply parse_line_blank. by apply Hpre. }
  done.
Qed.

Lemma entry_before_header_witness :
  (parse_errors_txt headless_web "u").2 = Raise (UnboundLocalError "class_").
Proof.
  edestruct (entry_before_header headless_web "u"
               ["# no section line yet" +:+ nl; nl]
               ("22000    E    ERRCODE_DATA_EXCEPTION    data_exception" +:+ nl) []
               "22000    E    ERRCODE_DATA_EXCEPTION    data_exception"
               "22000" "DATA_EXCEPTION" "data_exception") as [H _]; [| | | | exact H].
  - reflexivity.
  - intros x Hx. rewrite !elem_of_cons in Hx.
    destruct Hx as [->|[->|Hx]]; [by vm_compute | by vm_compute | by apply elem_of_nil in Hx].
  - by vm_compute.
  - exists "    ", "E", "    ", "    data_exception", "".
    split_and!; try (by vm_compute); try (by left).
    exists "    ". split_and!; by vm_compute.
Defined.

(** ** The run *)

Lemma fetch_errors_raise urlopen vs1 v vs2 acc e :
  (fetch_errors urlopen vs1).2 = Ok acc →
  parse_version urlopen v = Raise e →
  (fetch_errors urlopen (vs1 ++ v :: vs2)).2 = Raise e.
Proof.
  rewrite !fetch_errors_result, for_each_app. intros -> Hv. simpl. by rewrite Hv.
Qed.

Lemma main_fetch_raise urlopen prog filename fs file_start e :
  read_base_file fs filename = Ok file_start →
  (fetch_errors urlopen versions).2 = Raise e →
  main urlopen [prog; filename] fs
  = Outcome (fetch_errors urlopen versions).1 fs (Raise e).
Proof. intros Hr Hf. unfold main. by rewrite Hr, Hf. Qed.

(** C5: a line that is not blank once its comment is removed and that
    neither pattern matches makes the loop raise [ValueError("unexpected
    line ...")] whatever the state; when it is the first line to raise in the
    first document to raise, the run ends with that exception and the target
    file is as it was. *)
Theorem malformed_line_aborts urlopen prog filename fs file_start
    vs1 v vs2 acc tag pre raw post st line :
  read_base_file fs filename = Ok file_start →
  versions = vs1 ++ v :: vs2 →
  (fetch_errors urlopen vs1).2 = Ok acc →
  version_tag v = Ok tag →
  urlopen (errors_txt_url tag) = Ok (pre ++ raw :: post) →
  Builtins.for_each parse_line (Locals [] [] None) pre = Ok st →
  cleaned raw = Ok line →
  line ≠ "" →
  Re.matches 2 section_re line = None →
  Re.matches 3 error_re line = None →
  (∀ st0, parse_line st0 raw = Raise (unexpected_line line))
  ∧ (parse_errors_txt urlopen (errors_txt_url tag)).2 = Raise (unexpected_line line)
  ∧ returned (main urlopen [prog; filename] fs) = Raise (unexpected_line line)
  ∧ files (main urlopen [prog; filename] fs) = fs.
Proof.
  intros Hr Hvs Hacc Htag Hpage Hpre Hc Hne Hsec Herr.
  assert (Hline : ∀ st0, parse_line st0 raw = Raise (unexpected_line line))
    by (intros st0; by apply parse_line_malformed).
  assert (Hpv : parse_version urlopen v = Raise (unexpected_line line)).
  { unfold parse_version. rewrite Htag. simpl. rewrite Hpage. simpl.
    unfold parse_page. rewrite for_each_app, Hpre. simpl. by rewrite Hline. }
  split_and!; [done | | |].
  - rewrite parse_errors_txt_result.
    unfold parse_version in Hpv. by rewrite Htag in Hpv.
  - erewrite main_fetch_raise; [done | done |].
    rewrite Hvs. by eapply fetch_errors_raise.
  - erewrite main_fetch_raise; [done | done |].
    rewrite Hvs. by eapply fetch_errors_raise.
Qed.

Lemma malformed_line_aborts_witness :
  returned (main broken_web ["make_errorcodes.py"; "errorcodes.py"] sample_fs)
  = Raise (ValueError ("unexpected line:" +:+ nl
                        +:+ "22000    X    ERRCODE_DATA_EXCEPTION    data_exception"))
  ∧ files (main broken_web ["make_errorcodes.py"; "errorcodes.py"] sample_fs) = sample_fs.
Proof.
  edestruct (malformed_line_aborts broken_web "make_errorcodes.py" "errorcodes.py" sample_fs
               ["# the module"; "# autogenerated data: do not edit below this point."]
               [] "9.1" ["9.2"; "9.3"; "9.4"; "9.5"; "9.6"; "10"; "11"; "12"]
               ([], []) "REL9_1_STABLE"
               ["Section: Class 22 - Data Exception" +:+ nl]
               ("22000    X    ERRCODE_DATA_EXCEPTION    data_exception" +:+ nl) []
               sample_state "22000    X    ERRCODE_DATA_EXCEPTION    data_exception")
    as (_ & _ & H1 & H2);
    [vm_compute; reflexivity | reflexivity | reflexivity | vm_compute; reflexivity
    | reflexivity | vm_compute; reflexivity | by vm_compute | done
    | by vm_compute | by vm_compute | by split].
Defined.

Lemma read_lines_none rv ls :
  (∀ l, l ∈ ls → Py.startswith l "# autogenerated" = false) →
  read_lines rv ls = Raise no_separator.
Proof.
  revert rv. induction ls as [|l ls IH]; intros rv H; simpl; [done|].
  rewrite H by left. apply IH. intros l' Hl'. apply H. by right.
Qed.

Lemma read_lines_found rv pre s post :
  (∀ l, l ∈ pre → Py.startswith l "# autogenerated" = false) →
  Py.startswith s "# autogenerated" = true →
  read_lines rv (pre ++ s :: post) = Ok (rv ++ (Py.rstrip_lf <$> pre ++ [s])).
Proof.
  revert rv. induction pre as [|l pre IH]; intros rv H Hs; simpl.
  - by rewrite Hs.
  - rewrite H by left. rewrite IH; [by rewrite <- app_assoc | | done].
    intros l' Hl'. apply H. by right.
Qed.

(** C6: when no line of the target file starts with the marker, the run ends
    with the [ValueError] of [read_base_file] before any event (no page is
    opened, whatever the web) and the files are as they were; when a line
    does, [read_base_file] returns the lines up to the first such line,
    that line included, each without its newline. *)
Theorem sentinel_split urlopen prog filename fs content :
  fs filename = Some content →
  ((∀ l, l ∈ Builtins.lines content → Py.startswith l "# autogenerated" = false) →
   main urlopen [prog; filename] fs = Outcome [] fs (Raise no_separator))
  ∧ (∀ pre s post,
       Builtins.lines content = pre ++ s :: post →
       (∀ l, l ∈ pre → Py.startswith l "# autogenerated" = false) →
       Py.startswith s "# autogenerated" = true →
       read_base_file fs filename = Ok (Py.rstrip_lf <$> pre ++ [s])).
Proof.
  intros Hfs. split.
  - intros Hnone. unfold main, read_base_file. rewrite Hfs.
    by rewrite read_lines_none.
  - intros pre s post Hl Hpre Hs. unfold read_base_file. rewrite Hfs, Hl.
    by rewrite read_lines_found.
Qed.

Lemma sentinel_split_witness :
  main sample_web ["make_errorcodes.py"; "README"] sample_fs
  = Outcome [] sample_fs (Raise no_separator)
  ∧ read_base_file mixed_fs "errorcodes.py"
    = Ok ["# the module"; "# autogenerated data"].
Proof.
  split.
  - apply (sentinel_split sample_web "make_errorcodes.py" "README" sample_fs
             ("no marker here" +:+ nl)); [reflexivity|].
    intros l Hl. vm_compute in Hl. apply list_elem_of_singleton in Hl as ->. by vm_compute.
  - apply (proj2 (sentinel_split sample_web "make_errorcodes.py" "errorcodes.py" mixed_fs _
                    eq_refl)
             ["# the module" +:+ nl]
             ("# autogenerated data" +:+ nl)
             ["OLD = '0'" +:+ nl]).
    + by vm_compute.
    + intros l Hl. apply list_elem_of_singleton in Hl as ->. by vm_compute.
    + by vm_compute.
Defined.

(** ** [str.partition] and [str.split] *)

Lemma prefix_drop p s :
  String.prefix p s = true → s = p +:+ Py.drop (String.length p) s.
Proof.
  revert s. induction p as [|a p IH]; intros s; [done|].
  destruct s as [|b s]; simpl; [done|].
  destruct (ascii_dec a b) as [->|]; [|done].
  intros H. rewrite app_cons_str. f_equal. by apply IH.
Qed.

Lemma prefix_app p s : String.prefix p (p +:+ s) = true.
Proof.
  induction p as [|a p IH]; [by destruct s|].
  rewrite app_cons_str. simpl. by destruct (ascii_dec a a).
Qed.

Lemma partition_eq sep s :
  Py.partition sep s
  = if String.prefix sep s then Some ("", Py.drop (String.length sep) s)
    else match s with
         | "" => None
         | String a s' =>
             match Py.partition sep s' with
             | Some (b, t) => Some (String a b, t)
             | None => None
             end
         end.
Proof. by destruct s. Qed.

Lemma partition_Some sep s b t :
  Py.partition sep s = Some (b, t) → s = b +:+ sep +:+ t.
Proof.
  revert b. induction s as [|a s IH]; intros b; rewrite partition_eq;
    destruct (String.prefix sep _) eqn:E; try done.
  - intros [= <- <-]. rewrite app_nil_l_str. by apply prefix_drop.
  - intros [= <- <-]. rewrite app_nil_l_str. by apply prefix_drop.
  - destruct (Py.partition sep s) as [[b' t']|]; [|done].
    intros [= <- <-]. rewrite app_cons_str. f_equal. by apply IH.
Qed.

Lemma partition_app sep x y :
  ∃ b t, Py.partition sep (x +:+ sep +:+ y) = Some (b, t).
Proof.
  induction x as [|a x (b & t & IH)].
  - rewrite app_nil_l_str, partition_eq, prefix_app. eauto.
  - rewrite app_cons_str, partition_eq.
    destruct (String.prefix sep _); [eauto|]. rewrite IH. eauto.
Qed.

Lemma partition_shorter sep s b t :
  sep ≠ "" → Py.partition sep s = Some (b, t) → String.length t < String.length s.
Proof.
  intros Hne ->%partition_Some. rewrite !length_app_str.
  destruct sep; [done|]. simpl. lia.
Qed.

Lemma split_fuel_enough sep s n m :
  sep ≠ "" → String.length s ≤ n → String.length s ≤ m →
  Py.split_fuel n sep s = Py.split_fuel m sep s.
Proof.
  intros Hne. revert s m. induction n as [|n IH]; intros s m Hn Hm.
  - destruct m; cbn [Py.split_fuel]; [done|].
    destruct (Py.partition sep s) as [[b t]|] eqn:E; [|done].
    apply partition_shorter in E; [lia | done].
  - destruct m as [|m]; cbn [Py.split_fuel].
    + destruct (Py.partition sep s) as [[b t]|] eqn:E; [|done].
      apply partition_shorter in E; [lia | done].
    + destruct (Py.partition sep s) as [[b t]|] eqn:E; [|done].
      apply partition_shorter in E; [|done]. f_equal. apply IH; lia.
Qed.

(** The equation of [split]: cut at the first separator, split the rest. *)
Lemma split_unfold sep s :
  sep ≠ "" →
  Py.split sep s
  = match Py.partition sep s with
    | None => [s]
    | Some (b, t) => b :: Py.split sep t
    end.
Proof.
  intros Hne. unfold Py.split.
  destruct (String.length s) as [|n] eqn:Hn; cbn [Py.split_fuel].
  - destruct (Py.partition sep s) as [[b t]|] eqn:E; [|done].
    apply partition_shorter in E; [lia | done].
  - destruct (Py.partition sep s) as [[b t]|] eqn:E; [|done].
    f_equal. apply partition_shorter in E; [|done].
    apply split_fuel_enough; [done | lia | lia].
Qed.

(** ** The name of a class constant *)

Lemma split_head sep s : sep ≠ "" → Py.split sep s !! 0 = Some (before_first sep s).
Proof.
  intros Hne. rewrite split_unfold by done. unfold before_first.
  by destruct (Py.partition sep s) as [[b t]|].
Qed.

Lemma class_const_eq label :
  class_const label
  = match after_first " - " label with
    | Some t => Ok (normalise (before_first "(" (before_first " - " t)))
    | None => Raise IndexError
    end.
Proof.
  unfold class_const, after_first, Builtins.index.
  rewrite (split_unfold " - ") by done.
  destruct (Py.partition " - " label) as [[b t]|]; simpl; [|done].
  rewrite (split_head " - ") by done. simpl.
  by rewrite (split_head "(").
Qed.

(** C8, as the claim states it, fails for a label with a second [" - "]:
    the section line [Section: Class 22 - Data - Exception] puts such a label
    in the table of classes, the script names the constant [CLASS_DATA], the
    claim [CLASS_DATA_-_EXCEPTION]. *)
Lemma class_ident_counterexample :
  parse_page ["Section: Class 22 - Data - Exception" +:+ nl]
  = Ok ([("22", "Class 22 - Data - Exception")], [])
  ∧ class_ident "Class 22 - Data - Exception" = Ok "CLASS_DATA"
  ∧ class_ident_spec "Class 22 - Data - Exception" = Some "CLASS_DATA_-_EXCEPTION"
  ∧ yielded (generate_module_data [("22", "Class 22 - Data - Exception")] [])
    = [""; "# Error classes"; "CLASS_DATA = '22'"; ""; "# Class 22 - Data - Exception"].
Proof. split_and!; by vm_compute. Qed.

(** C8 (amended): the identifier of a class constant is [CLASS_] followed by
    the text between the first [" - "] of the label and the next one (all
    the text after the first when there is no other), cut at the first
    parenthesis, trimmed, with spaces and slashes replaced by underscores, in
    upper case; the line for the class binds it to the class code.  A label
    of a section line always has a [" - "]. *)
Theorem class_ident_between label :
  class_ident label
  = match after_first " - " label with
    | Some t => Ok ("CLASS_" +:+ normalise (before_first "(" (before_first " - " t)))
    | None => Raise IndexError
    end
  ∧ (∀ clscode ident,
       class_ident label = Ok ident →
       class_lines [(clscode, label)] = ([ident +:+ " = " +:+ Py.repr clscode], None))
  ∧ (∀ line g l,
       Re.matches 2 section_re line = Some g → g !! 0 = Some (Some l) →
       ∃ ident, class_ident l = Ok ident).
Proof.
  split_and!.
  - unfold class_ident. rewrite class_const_eq. by destruct (after_first _ _).
  - intros clscode ident. unfold class_ident. simpl.
    destruct (class_const label) as [err|]; simpl; [|done].
    intros [= <-]. by rewrite app_assoc_str.
  - intros line g l (a & b & text & rest & -> & _ & _)%section_groups [= <-].
    unfold class_ident. rewrite class_const_eq. unfold after_first.
    destruct (partition_app " - " ("Class " +:+ String a (String b "")) text)
      as (b' & t' & E).
    rewrite app_assoc_str in E. rewrite E. simpl. eauto.
Qed.

(** With a single [" - "] in the label the two readings agree. *)
Lemma class_ident_spec_agrees label t :
  after_first " - " label = Some t →
  Py.partition " - " t = None →
  class_ident label = Ok (default "" (class_ident_spec label)).
Proof.
  intros Ht Hn. unfold class_ident, class_ident_spec.
  rewrite class_const_eq, Ht. simpl.
  unfold before_first at 2. by rewrite Hn.
Qed.

(** ** [sorted] *)

Lemma compare_refl_str s : String.compare s s = Eq.
Proof.
  pose proof (String.compare_antisym s s) as H.
  by destruct (String.compare s s).
Qed.

Lemma compare_Lt_le a b : String.compare a b = Lt ↔ String.le a b ∧ a ≠ b.
Proof.
  unfold String.le, String.leb. split.
  - intros H. rewrite H. split; [done|]. intros ->. by rewrite compare_refl_str in H.
  - intros [Hle Hne]. destruct (String.compare a b) eqn:E; [|done|done].
    by apply String.compare_eq_iff in E.
Qed.

Lemma compare_Lt_trans a b c :
  String.compare a b = Lt → String.compare b c = Lt → String.compare a c = Lt.
Proof.
  rewrite !compare_Lt_le. intros [H1 N1] [H2 N2]. split.
  - by etrans.
  - intros ->. apply N1. by apply (anti_symm String.le).
Qed.

Lemma item_le_spec x y :
  item_le x y ↔ String.compare x.1 y.1 = Lt ∨ (x.1 = y.1 ∧ String.le x.2 y.2).
Proof.
  unfold item_le, item_leb, String.le. split.
  - destruct (String.compare x.1 y.1) eqn:E; [|by left|done].
    apply String.compare_eq_iff in E. intros H. right. by rewrite H.
  - intros [->|[-> H]]; [done|]. rewrite compare_refl_str.
    by destruct (String.leb x.2 y.2).
Qed.

#[global] Instance item_le_trans : Transitive item_le.
Proof.
  intros x y z. rewrite !item_le_spec.
  intros [H1|[E1 H1]] [H2|[E2 H2]].
  - left. by eapply compare_Lt_trans.
  - left. by rewrite <- E2.
  - left. by rewrite E1.
  - right. split; [congruence | by etrans].
Qed.

#[global] Instance item_le_total : Total item_le.
Proof.
  intros x y. rewrite !item_le_spec.
  destruct (String.compare x.1 y.1) eqn:E.
  - apply String.compare_eq_iff in E.
    destruct (total String.le x.2 y.2); [left | right]; right; by split.
  - by left; left.
  - right; left. rewrite String.compare_antisym, E. done.
Qed.

#[global] Instance item_le_antisym : AntiSymm (=) item_le.
Proof.
  intros [k1 v1] [k2 v2]. rewrite !item_le_spec. simpl.
  intros [H1|[E1 H1]] [H2|[E2 H2]].
  - rewrite String.compare_antisym, H2 in H1. done.
  - subst. by rewrite compare_refl_str in H1.
  - subst. by rewrite compare_refl_str in H2.
  - subst. f_equal. by apply (anti_symm String.le).
Qed.

Lemma sorted_perm items : sorted items ≡ₚ items.
Proof. apply merge_sort_Permutation. Qed.

Lemma sorted_sorted items : StronglySorted item_le (sorted items).
Proof. apply (StronglySorted_merge_sort item_le). Qed.

(** The sorted list does not depend on the order of the items. *)
Lemma sorted_unique items1 items2 :
  items1 ≡ₚ items2 → sorted items1 = sorted items2.
Proof.
  intros H. apply (StronglySorted_unique item_le); try apply sorted_sorted.
  by rewrite !sorted_perm.
Qed.

Lemma StronglySorted_ascending items :
  NoDup items.*1 → StronglySorted item_le items → ascending items.
Proof.
  induction 2 as [|x l Hs IH Hall]; [constructor|].
  rewrite fmap_cons in H. apply NoDup_cons in H as [Hnin Hnd].
  constructor; [by apply IH|].
  rewrite Forall_forall in *. intros y Hy.
  pose proof (Hall y Hy) as [Hlt|[Heq _]]%item_le_spec; [done|].
  exfalso. apply Hnin. rewrite Heq. by apply list_elem_of_fmap_2.
Qed.

(** The items of a dictionary, sorted, are in ascending order of the keys. *)
Lemma sorted_ascending (d : dict string) : dict_wf d → ascending (sorted d).
Proof.
  intros Hd. apply StronglySorted_ascending; [|apply sorted_sorted].
  unfold dict_wf in Hd. by rewrite sorted_perm.
Qed.

(** Dictionaries with the same entries have the same items, up to order. *)
Lemma dict_perm {V} (d1 d2 : dict V) :
  dict_wf d1 → dict_wf d2 →
  (∀ k, dict_get d1 k = dict_get d2 k) → d1 ≡ₚ d2.
Proof.
  intros H1 H2 Heq. apply NoDup_Permutation.
  - by eapply (NoDup_fmap_1 fst).
  - by eapply (NoDup_fmap_1 fst).
  - intros [k v]. split; intros Hin.
    + apply dict_get_elem_of. rewrite <- Heq. by apply elem_of_dict_get.
    + apply dict_get_elem_of. rewrite Heq. by apply elem_of_dict_get.
Qed.

(** ** The generated lines *)

Lemma inner_of_dd_getitem errors c c' :
  inner_of (dd_getitem errors c).2 c' = inner_of errors c'.
Proof.
  unfold inner_of, dd_getitem. destruct (dict_get errors c) eqn:E; simpl; [done|].
  rewrite dict_get_set. case_decide; [subst; by rewrite E | done].
Qed.

Lemma inner_of_wf errors c : errtable_wf errors → dict_wf (inner_of errors c).
Proof. intros H. unfold inner_of. rewrite <- dd_getitem_inner. by apply dd_getitem_inner_wf. Qed.

Lemma lookup2_inner_of errors c e : lookup2 errors c e = dict_get (inner_of errors c) e.
Proof. unfold lookup2, inner_of. by destruct (dict_get errors c). Qed.

Lemma section_lines_inv errors0 errors items :
  (∀ c, inner_of errors c = inner_of errors0 c) →
  (section_lines errors items).1 = concat (section_of errors0 <$> items)
  ∧ ∀ c, inner_of (section_lines errors items).2 c = inner_of errors0 c.
Proof.
  revert errors. induction items as [|[c l] items IH]; intros errors He; [done|].
  cbn [section_lines].
  pose proof (dd_getitem_inner errors c) as Hi.
  pose proof (inner_of_dd_getitem errors c) as Hd.
  destruct (dd_getitem errors c) as [inner errors']. simpl in Hi, Hd.
  destruct (IH errors') as [IH1 IH2]; [intros c'; by rewrite Hd|].
  split; [|done].
  cbn [fst]. rewrite IH1, fmap_cons. cbn [concat]. unfold section_of at 2.
  cbn [fst snd]. rewrite <- He. unfold inner_of at 1. by rewrite <- Hi.
Qed.

Lemma section_lines_spec errors items :
  (section_lines errors items).1 = concat (section_of errors <$> items)
  ∧ ∀ c, inner_of (section_lines errors items).2 c = inner_of errors c.
Proof. by apply section_lines_inv. Qed.

Lemma section_label_ok line label cls :
  Re.matches 2 section_re line = Some [Some label; Some cls] →
  ∃ err, class_const label = Ok err.
Proof.
  intros (a & b & text & rest & [= -> ->] & _ & _)%section_groups.
  rewrite class_const_eq. unfold after_first.
  destruct (partition_app " - " ("Class " +:+ String a (String b "")) text)
    as (b' & t' & E).
  rewrite app_assoc_str in E. rewrite E. simpl. eauto.
Qed.

Lemma labels_ok_set classes c l :
  labels_ok classes → (∃ err, class_const l = Ok err) → labels_ok (dict_set classes c l).
Proof.
  intros H Hl c' l' [[-> ->]|Hin]%elem_of_dict_set; [done | by eapply H].
Qed.

Lemma labels_ok_update classes other :
  labels_ok classes → labels_ok other → labels_ok (dict_update classes other).
Proof.
  unfold dict_update. revert classes.
  induction other as [|[c l] other IH]; intros classes Hc Ho; [done|].
  cbn [foldl]. apply IH.
  - apply labels_ok_set; [done|]. eapply Ho. by left.
  - intros c' l' Hin. eapply Ho. by right.
Qed.

Lemma parse_line_labels st raw st' :
  labels_ok (classes st) → parse_line st raw = Ok st' → labels_ok (classes st').
Proof.
  intros Hl. unfold parse_line, store_error.
  destruct (cleaned raw) as [line|]; simpl; [|done].
  case_decide; [by intros [= <-]|].
  destruct (Re.matches 2 section_re line) as [g|] eqn:E.
  - repeat case_match; intros; simplify_eq; try done.
    apply labels_ok_set; [done|]. by eapply section_label_ok.
  - repeat case_match; intros; simplify_eq; done.
Qed.

Lemma parse_version_labels urlopen v t :
  parse_version urlopen v = Ok t → labels_ok t.1.
Proof.
  unfold parse_version. destruct (version_tag v); simpl; [|done].
  destruct (urlopen _) as [page|]; simpl; [|done]. unfold parse_page.
  destruct (Builtins.for_each _ _ _) as [st|] eqn:E; simpl; [|done].
  intros [= <-]. simpl.
  eapply (for_each_inv parse_line (fun st => labels_ok (classes st))) in E; [done | |].
  - intros ????. by apply parse_line_labels.
  - intros c l Hin. by apply elem_of_nil in Hin.
Qed.

Lemma fetch_errors_labels urlopen vs t :
  (fetch_errors urlopen vs).2 = Ok t → labels_ok t.1.
Proof.
  rewrite fetch_errors_result. intros H.
  eapply (for_each_inv _ (fun t => labels_ok t.1)) in H; [done | |].
  - intros acc v acc' Hacc. destruct (parse_version urlopen v) eqn:E; simpl; [|done].
    intros [= <-]. apply labels_ok_update; [done | by eapply parse_version_labels].
  - intros c l Hin. by apply elem_of_nil in Hin.
Qed.

Lemma class_lines_ok items :
  (∀ c l, (c, l) ∈ items → ∃ err, class_const l = Ok err) →
  ∃ decls, class_lines items = (decls, None) ∧ Forall2 class_decl items decls.
Proof.
  induction items as [|[c l] items IH]; intros H.
  - exists []. by split.
  - destruct IH as (decls & E & HF); [intros ???; eapply H; by right|].
    destruct (H c l) as [err Herr]; [by left|].
    cbn [class_lines]. rewrite Herr, E.
    eexists. split; [done|]. constructor; [|done].
    exists ("CLASS_" +:+ err). unfold class_ident. simpl. rewrite Herr. simpl.
    by rewrite app_assoc_str.
Qed.

Lemma generate_block classes errors :
  dict_wf classes → errtable_wf errors → labels_ok classes →
  ∃ cs decls secs,
    cs ≡ₚ classes ∧ ascending cs
    ∧ Forall2 class_decl cs decls
    ∧ Forall2 (class_section errors) cs secs
    ∧ raised (generate_module_data classes errors) = None
    ∧ yielded (generate_module_data classes errors)
      = [""; "# Error classes"] ++ decls ++ concat secs.
Proof.
  intros Hc He Hl. unfold generate_module_data.
  destruct (class_lines_ok (sorted classes)) as (decls & E & HF).
  { intros c l Hin. eapply Hl. by rewrite <- (sorted_perm classes). }
  rewrite E. cbn [fst snd].
  exists (sorted classes), decls, (section_of errors <$> sorted classes).
  split_and!; try done.
  - apply sorted_perm.
  - by apply sorted_ascending.
  - apply Forall2_fmap_r, Forall_Forall2_diag, Forall_forall. intros item _.
    exists (sorted (inner_of errors item.1)). split_and!; [apply sorted_perm | | done].
    by apply sorted_ascending, inner_of_wf.
  - simpl. by rewrite (proj1 (section_lines_spec errors (sorted classes))).
Qed.

(** C7: for the tables of a merge that completed, the generator raises
    nothing and yields an empty line, the line [# Error classes], one
    declaration per class by ascending class code, and then per class, by
    ascending class code again, an empty line, the label in a comment and
    one declaration [LABEL = 'code'] per error of the class by ascending
    error code. *)
Theorem generated_block urlopen vs classes errors :
  (fetch_errors urlopen vs).2 = Ok (classes, errors) →
  ∃ cs decls secs,
    cs ≡ₚ classes ∧ ascending cs
    ∧ Forall2 class_decl cs decls
    ∧ Forall2 (class_section errors) cs secs
    ∧ raised (generate_module_data classes errors) = None
    ∧ yielded (generate_module_data classes errors)
      = [""; "# Error classes"] ++ decls ++ concat secs.
Proof.
  intros H.
  pose proof (fetch_errors_wf _ _ _ H) as [Hc He].
  pose proof (fetch_errors_labels _ _ _ H) as Hl.
  by apply generate_block.
Qed.

Lemma generated_block_witness :
  ∃ classes errors,
    (fetch_errors sample_web ["9.1"; "10"]).2 = Ok (classes, errors)
    ∧ raised (generate_module_data classes errors) = None.
Proof.
  eexists _, _. split; [vm_compute; reflexivity|].
  edestruct (generated_block sample_web ["9.1"; "10"]) as (_ & _ & _ & _ & _ & _ & _ & H & _);
    [vm_compute; reflexivity | exact H].
Defined.

Lemma section_of_ext errors1 errors2 item :
  errtable_wf errors1 → errtable_wf errors2 →
  (∀ c e, lookup2 errors1 c e = lookup2 errors2 c e) →
  section_of errors1 item = section_of errors2 item.
Proof.
  intros H1 H2 Heq. unfold section_of. do 3 f_equal.
  apply sorted_unique, dict_perm; [by apply inner_of_wf | by apply inner_of_wf |].
  intros e. by rewrite <- !lookup2_inner_of.
Qed.

Lemma generate_ext classes1 errors1 classes2 errors2 :
  sorted classes1 = sorted classes2 →
  (∀ item, section_of errors1 item = section_of errors2 item) →
  yielded (generate_module_data classes1 errors1)
  = yielded (generate_module_data classes2 errors2)
  ∧ raised (generate_module_data classes1 errors1)
    = raised (generate_module_data classes2 errors2).
Proof.
  intros Hs Hsec. unfold generate_module_data. rewrite Hs.
  destruct (class_lines (sorted classes2)) as [decls [e|]]; cbn [fst snd]; [done|].
  split; [|done]. cbn [yielded].
  rewrite !(proj1 (section_lines_spec _ _)). do 3 f_equal.
  apply list_fmap_ext. intros _ item _. apply Hsec.
Qed.

(** C9: tables with the same contents give the same lines and the same
    outcome, in whatever order their entries were inserted; and the table
    that a run of the generator leaves (it may hold new empty classes) gives
    the same lines again. *)
Theorem generate_deterministic classes1 errors1 classes2 errors2 :
  dict_wf classes1 → dict_wf classes2 →
  errtable_wf errors1 → errtable_wf errors2 →
  (∀ c, dict_get classes1 c = dict_get classes2 c) →
  (∀ c e, lookup2 errors1 c e = lookup2 errors2 c e) →
  yielded (generate_module_data classes1 errors1)
  = yielded (generate_module_data classes2 errors2)
  ∧ raised (generate_module_data classes1 errors1)
    = raised (generate_module_data classes2 errors2)
  ∧ yielded (generate_module_data classes1
               (errors_after (generate_module_data classes1 errors1)))
    = yielded (generate_module_data classes1 errors1).
Proof.
  intros Hc1 Hc2 He1 He2 Hc He.
  destruct (generate_ext classes1 errors1 classes2 errors2) as [Hy Hr].
  { by apply sorted_unique, dict_perm. }
  { intros item. by apply section_of_ext. }
  split_and!; [done | done |].
  apply generate_ext; [done|]. intros item. unfold section_of. do 4 f_equal.
  unfold generate_module_data.
  destruct (class_lines (sorted classes1)) as [decls [e|]]; cbn [fst snd errors_after]; [done|].
  apply (proj2 (section_lines_spec _ _)).
Qed.

Lemma errtable_wf_Forall (t : errtable) :
  NoDup t.*1 ∧ Forall (fun item => NoDup item.2.*1) t → errtable_wf t.
Proof.
  intros [Hd Hf]. split; [done|]. intros c inner Hin.
  rewrite Forall_forall in Hf. apply (Hf (c, inner) Hin).
Qed.

Lemma generate_deterministic_witness :
  yielded (generate_module_data tables_a.1 tables_a.2)
  = yielded (generate_module_data tables_b.1 tables_b.2).
Proof.
  apply (generate_deterministic tables_a.1 tables_a.2 tables_b.1 tables_b.2).
  - apply (bool_decide_unpack _). by vm_compute.
  - apply (bool_decide_unpack _). by vm_compute.
  - apply errtable_wf_Forall, (bool_decide_unpack _). by vm_compute.
  - apply errtable_wf_Forall, (bool_decide_unpack _). by vm_compute.
  - intros c. simpl. repeat case_decide; congruence.
  - intros c e. unfold lookup2. simpl. repeat case_decide; simpl; try congruence;
      repeat case_decide; congruence.
Defined.

(** ** Ends of line in the target file *)

(** A carriage return ends a line as a line feed does, and a carriage return
    with a line feed is one end of line. *)
Example lines_universal_newlines :
  Builtins.lines ("abc" +:+ String "013" ("# autogenerated" +:+ nl +:+ "rest" +:+ nl))
  = ["abc" +:+ nl; "# autogenerated" +:+ nl; "rest" +:+ nl]
  ∧ Builtins.lines ("a" +:+ String "013" nl +:+ "b" +:+ String "013" (String "013" nl) +:+ "c")
    = ["a" +:+ nl; "b" +:+ nl; nl; "c"]
  ∧ Builtins.lines (nl +:+ String "013" "") = [nl; nl].
Proof. by vm_compute. Qed.

Example read_base_file_mixed :
  read_base_file mixed_fs "errorcodes.py" = Ok ["# the module"; "# autogenerated data"].
Proof. by vm_compute. Qed.

(** ** A complete run *)

(** The run over the nine releases rewrites the target file: the lines up to
    the marker stay, the generated block follows. *)
Example main_rewrites_target :
  let o := main steady_web ["make_errorcodes.py"; "errorcodes.py"] sample_fs in
  returned o = Ok None
  ∧ files o "errorcodes.py"
    = Some (Builtins.unlines
              [ "# the module";
                "# autogenerated data: do not edit below this point.";
                "";
                "# Error classes";
                "CLASS_DATA_EXCEPTION = '22'";
                "";
                "# Class 22 - Data Exception";
                "DATA_EXCEPTION = '22000'";
                "STRING_DATA_RIGHT_TRUNCATION = '22001'";
                "INVALID_LIMIT_VALUE = '22020'" ])
  ∧ files o "README" = sample_fs "README"
  ∧ length (trace o) = 18.
Proof. by vm_compute. Qed.

Example version_tags :
  version_tag "9.1" = Ok "REL9_1_STABLE" ∧ version_tag "12" = Ok "REL_12_STABLE".
Proof. by vm_compute. Qed.

(** * Further properties of the script *)

(** ** Lines of a document: blanks, comments, octets, section lines *)

Lemma lstrip_all p s : Py.all p s = true → Py.lstrip_with p s = "".
Proof.
  induction s as [|a s IH]; simpl; [done|].
  intros [Ha Hs]%andb_true_iff. rewrite Ha. by apply IH.
Qed.

Lemma strip_all_space s : Py.all Py.isspace s = true → Py.strip s = "".
Proof. intros H. unfold Py.strip. by rewrite lstrip_all. Qed.

Lemma decode_ascii_ok s : is_ascii s → Py.decode_ascii s = Ok s.
Proof. intros H. unfold Py.decode_ascii. by rewrite H. Qed.

Lemma prefix_char c a s :
  String.prefix (String c "") (String a s) = bool_decide (c = a).
Proof.
  simpl. destruct (ascii_dec c a) as [->|Hne].
  - rewrite bool_decide_eq_true_2 by done. by destruct s.
  - by rewrite bool_decide_eq_false_2.
Qed.

Lemma partition_char_none c s :
  Py.contains_char c s = false → Py.partition (String c "") s = None.
Proof.
  induction s as [|a s IH]; [done|]. simpl Py.contains_char.
  intros [Ha Hs]%orb_false_iff. rewrite partition_eq, prefix_char.
  rewrite bool_decide_eq_false_2; [by rewrite IH|].
  intros ->. by rewrite Ascii.eqb_refl in Ha.
Qed.

Lemma partition_char_first c body rest :
  Py.contains_char c body = false →
  Py.partition (String c "") (body +:+ String c rest) = Some (body, rest).
Proof.
  induction body as [|a body IH].
  - intros _. rewrite app_nil_l_str, partition_eq, prefix_char.
    by rewrite bool_decide_eq_true_2.
  - simpl Py.contains_char. intros [Ha Hs]%orb_false_iff.
    rewrite app_cons_str, partition_eq, prefix_char.
    rewrite bool_decide_eq_false_2; [by rewrite IH|].
    intros ->. by rewrite Ascii.eqb_refl in Ha.
Qed.

Lemma cleaned_no_comment body :
  is_ascii body → Py.contains_char "#" body = false →
  cleaned body = Ok (Py.strip body).
Proof.
  intros Ha Hc. unfold cleaned. rewrite decode_ascii_ok by done. simpl.
  unfold Builtins.index. rewrite (split_unfold "#") by done.
  by rewrite partition_char_none.
Qed.

Lemma cleaned_comment body comment :
  is_ascii body → is_ascii comment → Py.contains_char "#" body = false →
  cleaned (body +:+ String "#" comment) = Ok (Py.strip body).
Proof.
  intros Ha Hb Hc. unfold cleaned. rewrite decode_ascii_ok; last first.
  { unfold is_ascii in *. rewrite all_app. simpl. by rewrite Ha, Hb. }
  simpl. unfold Builtins.index. rewrite (split_unfold "#") by done.
  by rewrite partition_char_first.
Qed.

Lemma space_no_hash ws : Py.all Py.isspace ws = true → Py.contains_char "#" ws = false.
Proof.
  induction ws as [|a ws IH]; [done|]. simpl.
  intros [Ha Hs]%andb_true_iff. rewrite IH by done.
  destruct (Ascii.eqb_spec a "#") as [->|]; [done | done].
Qed.

Lemma space_is_ascii ws : Py.all Py.isspace ws = true → is_ascii ws.
Proof.
  unfold is_ascii. induction ws as [|a ws IH]; [done|]. simpl.
  intros [Ha Hs]%andb_true_iff. rewrite IH by done. rewrite andb_true_r.
  unfold Py.isspace in Ha. apply N.ltb_lt.
  apply orb_true_iff in Ha as [[_ H]%andb_true_iff|[_ H]%andb_true_iff];
    apply N.leb_le in H; lia.
Qed.

(** X1: a line that has nothing but whitespace in front of a comment of
    ASCII characters, or nothing but whitespace at all, changes no table and
    raises nothing; the document parses as it does without the line.  (A
    comment with an octet above 127 raises, see X3.) *)
Theorem blank_or_comment_skipped st ws comment pre post :
  Py.all Py.isspace ws = true →
  is_ascii comment →
  parse_line st (ws +:+ String "#" comment) = Ok st
  ∧ parse_line st ws = Ok st
  ∧ parse_page (pre ++ (ws +:+ String "#" comment) :: post) = parse_page (pre ++ post)
  ∧ parse_page (pre ++ ws :: post) = parse_page (pre ++ post).
Proof.
  intros Hws Hc.
  assert (H1 : ∀ st, parse_line st (ws +:+ String "#" comment) = Ok st).
  { intros st0. apply parse_line_blank.
    rewrite cleaned_comment by auto using space_is_ascii, space_no_hash.
    by rewrite strip_all_space. }
  assert (H2 : ∀ st, parse_line st ws = Ok st).
  { intros st0. apply parse_line_blank.
    rewrite cleaned_no_comment by auto using space_is_ascii, space_no_hash.
    by rewrite strip_all_space. }
  split_and!; [done | done | |]; unfold parse_page;
    rewrite !for_each_app; destruct (Builtins.for_each parse_line _ pre); simpl;
    by rewrite ?H1, ?H2.
Qed.

Lemma blank_or_comment_skipped_witness :
  parse_page ["  # a comment" +:+ nl; "Section: Class 08 - Connection Exception" +:+ nl]
  = parse_page ["Section: Class 08 - Connection Exception" +:+ nl].
Proof.
  apply (blank_or_comment_skipped (Locals [] [] None) "  " (" a comment" +:+ nl) []
           ["Section: Class 08 - Connection Exception" +:+ nl]); by vm_compute.
Defined.

(** X2: a comment at the end of a line is not parsed: the line with the
    comment does to every state what the line without it does. *)
Theorem trailing_comment_ignored st body comment :
  is_ascii body → is_ascii comment →
  Py.contains_char "#" body = false →
  parse_line st (body +:+ String "#" comment) = parse_line st body.
Proof.
  intros Ha Hb Hc. unfold parse_line.
  by rewrite cleaned_comment, cleaned_no_comment.
Qed.

Lemma trailing_comment_ignored_witness :
  parse_line sample_state "22012 E ERRCODE_DIVISION_BY_ZERO division_by_zero  # x/0"
  = parse_line sample_state "22012 E ERRCODE_DIVISION_BY_ZERO division_by_zero  ".
Proof.
  apply (trailing_comment_ignored sample_state
           "22012 E ERRCODE_DIVISION_BY_ZERO division_by_zero  " " x/0"); by vm_compute.
Defined.

(** X3: an octet above 127 anywhere in a line, also inside its comment,
    ends the parse with [UnicodeDecodeError]: the line is decoded before the
    comment is cut off. *)
Theorem non_ascii_octet_raises urlopen url st pre a post before after st' :
  (128 <= Py.code a)%N →
  urlopen url = Ok (before ++ (pre +:+ String a post) :: after) →
  Builtins.for_each parse_line (Locals [] [] None) before = Ok st' →
  parse_line st (pre +:+ String a post) = Raise UnicodeDecodeError
  ∧ (parse_errors_txt urlopen url).2 = Raise UnicodeDecodeError.
Proof.
  intros Ha Hu Hb.
  assert (H : ∀ st, parse_line st (pre +:+ String a post) = Raise UnicodeDecodeError).
  { intros st0. unfold parse_line, cleaned, Py.decode_ascii.
    rewrite all_app. simpl. apply N.ltb_ge in Ha. rewrite Ha.
    by rewrite andb_false_r. }
  split; [done|]. rewrite parse_errors_txt_result, Hu.
  change (parse_page (before ++ (pre +:+ String a post) :: after) = Raise UnicodeDecodeError).
  unfold parse_page. rewrite for_each_app, Hb. simpl. by rewrite H.
Qed.

Lemma non_ascii_octet_raises_witness :
  (parse_errors_txt latin1_web "u").2 = Raise UnicodeDecodeError.
Proof.
  eapply (non_ascii_octet_raises latin1_web "u" sample_state
            "22000 E ERRCODE_DATA_EXCEPTION data_exception # caf" "233" nl
            ["Section: Class 22 - Data Exception" +:+ nl] []).
  - by vm_compute.
  - reflexivity.
  - vm_compute. reflexivity.
Defined.

Lemma section_shape_matches line cls label :
  section_shape line cls label →
  Re.matches 2 section_re line = Some [Some label; Some cls].
Proof.
  intros (a & b & text & -> & -> & -> & Hne & Hall).
  simpl in Hall. apply andb_true_iff in Hall as [Ha [Hb Ht]%andb_true_iff].
  unfold Re.matches, section_re. cbn [Re.seq Re.run].
  rewrite strip_prefix_app. rewrite strip_prefix_app.
  rewrite !app_cons_str, app_nil_l_str. cbn [Re.cmatch]. rewrite Ha, Hb.
  simpl (Re.strip_prefix _ _). cbv beta iota. rewrite !app_nil_l_str.
  rewrite <- (app_nil_r_str text) at 1.
  by apply plus_greedy.
Qed.

(** X4: a section line [Section: Class xx - text] stores the label
    [Class xx - text] under [xx] and makes [xx] the current class, whatever
    the state was; an error line with a specification word that follows it
    is stored under [xx]. *)
Theorem section_line_parsed st raw line cls label :
  cleaned raw = Ok line →
  section_shape line cls label →
  parse_line st raw = Ok (Locals (dict_set (classes st) cls label) (errors st) (Some cls))
  ∧ ∀ raw2 line2 errcode macro s,
      cleaned raw2 = Ok line2 →
      error_shape line2 errcode macro (Some s) →
      ∃ st2,
        Builtins.for_each parse_line st [raw; raw2] = Ok st2
        ∧ class_ st2 = Some cls
        ∧ dict_get (classes st2) cls = Some label
        ∧ lookup2 (errors st2) cls errcode = Some (Py.upper s).
Proof.
  intros Hc Hs.
  assert (H : parse_line st raw
              = Ok (Locals (dict_set (classes st) cls label) (errors st) (Some cls))).
  { pose proof (section_shape_matches _ _ _ Hs) as Hm.
    destruct (parse_line_section st raw line _ Hc Hm) as (l' & c' & [= <- <-] & ->).
    done. }
  split; [done|]. intros raw2 line2 errcode macro s Hc2 Hs2.
  cbn [Builtins.for_each]. rewrite H. simpl.
  rewrite (parse_line_error _ raw2 line2 errcode macro (Some s) Hc2 Hs2).
  unfold store_error. simpl. eexists. split_and!; [done | done | |]; simpl.
  - apply dict_get_set_eq.
  - rewrite lookup2_dd_set. by rewrite decide_True.
Qed.

Lemma section_line_parsed_witness :
  parse_line (Locals [] [] None) ("Section: Class HV - Foreign Data Wrapper Error (SQL/MED)" +:+ nl)
  = Ok (Locals [("HV", "Class HV - Foreign Data Wrapper Error (SQL/MED)")] [] (Some "HV")).
Proof.
  apply (section_line_parsed (Locals [] [] None)
           ("Section: Class HV - Foreign Data Wrapper Error (SQL/MED)" +:+ nl)
           "Section: Class HV - Foreign Data Wrapper Error (SQL/MED)" "HV"
           "Class HV - Foreign Data Wrapper Error (SQL/MED)").
  - by vm_compute.
  - exists "H"%char, "V"%char, "Foreign Data Wrapper Error (SQL/MED)".
    split_and!; by vm_compute.
Defined.

(** ** The events of the merge *)

Lemma io_for_each_app {A S} (body : S → A → io S) st xs ys :
  io_for_each body st (xs ++ ys)
  = (st' ← io_for_each body st xs; io_for_each body st' ys).
Proof.
  revert st. induction xs as [|x xs IH]; intros st.
  - simpl. unfold mbind, io_bind, pure. simpl.
    by destruct (io_for_each body st ys) as [tr r].
  - simpl. unfold mbind at 1 3, io_bind at 1 3.
    destruct (body st x) as [tr [st'|e]]; simpl; [|done].
    rewrite IH. unfold mbind, io_bind.
    destruct (io_for_each body st' xs) as [tr1 [st1|e1]]; simpl; [|done].
    by rewrite app_assoc.
Qed.

Lemma fetch_version_trace urlopen acc v :
  (fetch_version urlopen acc v).1 = version_events v.
Proof.
  unfold fetch_version, version_events, parse_errors_txt, mbind, io_bind. simpl.
  destruct (version_tag v) as [tag|]; simpl; [|done].
  destruct (urlopen (errors_txt_url tag)) as [page|]; simpl; [|done].
  by destruct (Builtins.for_each _ _ _).
Qed.

Lemma fetch_errors_cons_trace urlopen acc v vs :
  (io_for_each (fetch_version urlopen) acc (v :: vs)).1
  = version_events v ++
    match (fetch_version urlopen acc v).2 with
    | Ok acc' => (io_for_each (fetch_version urlopen) acc' vs).1
    | Raise _ => []
    end.
Proof.
  cbn [io_for_each]. unfold mbind, io_bind.
  rewrite <- (fetch_version_trace urlopen acc v).
  destruct (fetch_version urlopen acc v) as [tr [acc'|e]]; simpl; [done|].
  by rewrite app_nil_r.
Qed.

(** X5: a merge that completes has asked for exactly one document per
    version, in the order of the versions, each request after the version
    has been printed on the standard error stream. *)
Theorem fetch_trace_complete urlopen vs t :
  (fetch_errors urlopen vs).2 = Ok t →
  ∃ tags,
    Forall2 (fun v tag => version_tag v = Ok tag) vs tags
    ∧ (fetch_errors urlopen vs).1
      = concat (zip_with (fun v tag => [Stderr v; UrlOpen (errors_txt_url tag)]) vs tags).
Proof.
  unfold fetch_errors.
  generalize (@nil (string * string), @nil (string * dict string)).
  revert t. induction vs as [|v vs IH]; intros t acc H.
  - exists []. by split.
  - cbn [io_for_each] in *. unfold mbind, io_bind in *.
    pose proof (fetch_version_trace urlopen acc v) as Htr.
    pose proof (fetch_version_result urlopen acc v) as Hr.
    destruct (fetch_version urlopen acc v) as [tr [acc'|e]]; simpl in *; [|done].
    destruct (IH _ _ H) as (tags & HF & Htags).
    unfold parse_version in Hr. unfold version_events in Htr.
    destruct (version_tag v) as [tag|] eqn:Ht; [|done].
    exists (tag :: tags). split; [by constructor|].
    simpl. by rewrite Htags, Htr.
Qed.

Lemma fetch_trace_complete_witness :
  (fetch_errors sample_web ["9.1"; "10"]).1
  = [ Stderr "9.1"; UrlOpen (errors_txt_url "REL9_1_STABLE");
      Stderr "10"; UrlOpen (errors_txt_url "REL_10_STABLE") ].
Proof.
  edestruct (fetch_trace_complete sample_web ["9.1"; "10"]) as (tags & HF & ->).
  { vm_compute. reflexivity. }
  apply Forall2_cons_inv_l in HF as (t1 & tags1 & H1 & HF & ->).
  apply Forall2_cons_inv_l in HF as (t2 & tags2 & H2 & HF & ->).
  apply Forall2_nil_inv_l in HF as ->.
  vm_compute in H1, H2. by injection H1 as <-; injection H2 as <-.
Defined.

Lemma fetch_cons_raise urlopen acc v vs e :
  parse_version urlopen v = Raise e →
  io_for_each (fetch_version urlopen) acc (v :: vs) = (version_events v, Raise e).
Proof.
  intros Hv. cbn [io_for_each]. unfold mbind, io_bind.
  pose proof (fetch_version_trace urlopen acc v) as Htr.
  pose proof (fetch_version_result urlopen acc v) as Hr.
  rewrite Hv in Hr.
  destruct (fetch_version urlopen acc v) as [tr [acc'|e']]; simpl in *; [done|].
  by injection Hr as ->; subst.
Qed.

(** X6: the first version whose document cannot be fetched or parsed ends
    the merge with its exception; the events stop with that version, no
    later version is printed or requested. *)
Theorem fetch_stops_at_failure urlopen vs1 v vs2 acc e :
  (fetch_errors urlopen vs1).2 = Ok acc →
  parse_version urlopen v = Raise e →
  fetch_errors urlopen (vs1 ++ v :: vs2)
  = ((fetch_errors urlopen vs1).1 ++ version_events v, Raise e).
Proof.
  intros Hacc Hv. unfold fetch_errors in *. rewrite io_for_each_app.
  unfold mbind at 1, io_bind at 1. rewrite Hacc.
  by rewrite (fetch_cons_raise urlopen acc v vs2 e Hv).
Qed.

Lemma fetch_stops_at_failure_witness :
  fetch_errors sample_web (["9.1"] ++ "9.2" :: ["10"])
  = ([ Stderr "9.1"; UrlOpen (errors_txt_url "REL9_1_STABLE");
       Stderr "9.2"; UrlOpen (errors_txt_url "REL9_2_STABLE") ],
     Raise (URLError (errors_txt_url "REL9_2_STABLE"))).
Proof.
  erewrite (fetch_stops_at_failure sample_web ["9.1"] "9.2" ["10"]);
    [| vm_compute; reflexivity | vm_compute; reflexivity].
  by vm_compute.
Defined.

(** ** The merge: where entries come from, which label stays, what is kept *)

Lemma fetch_errors_nil urlopen : (fetch_errors urlopen []).2 = Ok ([], []).
Proof. done. Qed.

(** X7: the merge invents nothing: every error of the final table, the fixed
    entry 22020 of class 22 apart, has the label that the document of one of
    the versions gives it, and every class label is the label of a section
    line of one of the versions. *)
Theorem entries_provenance urlopen vs cl er :
  (fetch_errors urlopen vs).2 = Ok (cl, er) →
  (∀ c e l,
     lookup2 er c e = Some l →
     (c = "22" ∧ e = "22020" ∧ l = "INVALID_LIMIT_VALUE")
     ∨ ∃ v, v ∈ vs ∧ defines urlopen v c e l)
  ∧ (∀ c l,
       dict_get cl c = Some l → ∃ v, v ∈ vs ∧ labels_class urlopen v c l).
Proof.
  revert cl er. induction vs as [|v vs IH] using rev_ind; intros cl er H.
  - rewrite fetch_errors_nil in H. injection H as <- <-. by split.
  - apply fetch_errors_snoc in H as ([cl0 er0] & p & Hacc & Hp & [= -> ->]).
    destruct (IH _ _ Hacc) as [IHe IHc].
    pose proof (parse_version_wf _ _ _ Hp) as Hwf. split.
    + intros c e l. rewrite (errors_merge_version (cl0, er0) p) by done.
      destruct (lookup2 p.2 c e) as [l0|] eqn:E.
      * intros [= <-]. right. exists v. split; [apply elem_of_app; right; by left|].
        by exists p.
      * case_decide as Hd.
        { intros [= <-]. left. by destruct Hd as [<- <-]. }
        intros Hl. destruct (IHe _ _ _ Hl) as [?|(w & Hw & Hd')]; [by left|].
        right. exists w. split; [apply elem_of_app; by left | done].
    + intros c l. rewrite (classes_merge_version (cl0, er0) p) by done.
      destruct (dict_get p.1 c) as [l0|] eqn:E.
      * intros [= <-]. exists v. split; [apply elem_of_app; right; by left|].
        by exists p.
      * intros Hl. destruct (IHc _ _ Hl) as (w & Hw & Hd').
        exists w. split; [apply elem_of_app; by left | done].
Qed.

Lemma entries_provenance_witness :
  ∃ cl er,
    (fetch_errors sample_web ["9.1"; "10"]).2 = Ok (cl, er)
    ∧ (lookup2 er "22" "22001" = Some "STRING_TRUNCATION" →
       ("22" = "22" ∧ "22001" = "22020" ∧ "STRING_TRUNCATION" = "INVALID_LIMIT_VALUE")
       ∨ ∃ v, v ∈ ["9.1"; "10"] ∧ defines sample_web v "22" "22001" "STRING_TRUNCATION").
Proof.
  eexists _, _. split; [vm_compute; reflexivity|].
  apply (proj1 (entries_provenance sample_web ["9.1"; "10"] _ _ eq_refl)).
Defined.

(** X8: the label of an error in the final table is the label of the last
    version whose document defines the error in that class, and the label
    of a class the label of the last version that has a section line for it.
    For 22020 of class 22 this holds when that version is the last of all;
    otherwise a later iteration has set the fixed label. *)
Theorem last_definition_wins urlopen pre v post cl er :
  (fetch_errors urlopen (pre ++ v :: post)).2 = Ok (cl, er) →
  (∀ c e l,
     defines urlopen v c e l →
     (∀ w l', w ∈ post → ¬ defines urlopen w c e l') →
     post = [] ∨ ¬ (c = "22" ∧ e = "22020") →
     lookup2 er c e = Some l)
  ∧ (∀ c l,
       labels_class urlopen v c l →
       (∀ w l', w ∈ post → ¬ labels_class urlopen w c l') →
       dict_get cl c = Some l).
Proof.
  revert cl er. induction post as [|w post IH] using rev_ind; intros cl er H.
  - apply fetch_errors_snoc in H as ([cl0 er0] & p & _ & Hp & [= -> ->]).
    pose proof (parse_version_wf _ _ _ Hp) as Hwf. split.
    + intros c e l (t & Ht & Hl) _ _. rewrite Hp in Ht. injection Ht as <-.
      rewrite (errors_merge_version (cl0, er0) p) by done. by rewrite Hl.
    + intros c l (t & Ht & Hl) _. rewrite Hp in Ht. injection Ht as <-.
      rewrite (classes_merge_version (cl0, er0) p) by done. by rewrite Hl.
  - replace (pre ++ v :: post ++ [w]) with ((pre ++ v :: post) ++ [w]) in H
      by (by rewrite <- app_assoc).
    apply fetch_errors_snoc in H as ([cl0 er0] & p & Hacc & Hp & [= -> ->]).
    destruct (IH _ _ Hacc) as [IHe IHc].
    pose proof (parse_version_wf _ _ _ Hp) as Hwf. split.
    + intros c e l Hd Hnone [Hnil|Hleg]; [by destruct post|].
      rewrite (errors_merge_version (cl0, er0) p) by done.
      destruct (lookup2 p.2 c e) as [l0|] eqn:E.
      { exfalso. apply (Hnone w l0); [apply elem_of_app; right; by left|]. by exists p. }
      rewrite decide_False by (intros [<- <-]; by apply Hleg).
      apply IHe; [done | | by right].
      intros w' l' Hw'. apply Hnone. apply elem_of_app. by left.
    + intros c l Hd Hnone.
      rewrite (classes_merge_version (cl0, er0) p) by done.
      destruct (dict_get p.1 c) as [l0|] eqn:E.
      { exfalso. apply (Hnone w l0); [apply elem_of_app; right; by left|]. by exists p. }
      apply IHc; [done|].
      intros w' l' Hw'. apply Hnone. apply elem_of_app. by left.
Qed.

Lemma last_definition_wins_witness :
  ∃ cl er,
    (fetch_errors sample_web ([] ++ "9.1" :: ["10"])).2 = Ok (cl, er)
    ∧ lookup2 er "22" "22P01" = Some "FLOATING_POINT_EXCEPTION".
Proof.
  eexists _, _. split; [vm_compute; reflexivity|].
  apply (proj1 (last_definition_wins sample_web [] "9.1" ["10"] _ _ eq_refl)).
  - eexists. split; [vm_compute; reflexivity | by vm_compute].
  - intros w l' ->%list_elem_of_singleton (t & Ht & Hl).
    vm_compute in Ht. injection Ht as <-. by vm_compute in Hl.
  - right. by intros [_ ?].
Defined.

(** X9: the tables only grow: an error or a class that the merge of the
    first versions has is still there, in the same class, after any further
    versions. *)
Theorem entries_survive urlopen vs ws cl er cl' er' :
  (fetch_errors urlopen vs).2 = Ok (cl, er) →
  (fetch_errors urlopen (vs ++ ws)).2 = Ok (cl', er') →
  (∀ c e l, lookup2 er c e = Some l → ∃ l', lookup2 er' c e = Some l')
  ∧ (∀ c l, dict_get cl c = Some l → ∃ l', dict_get cl' c = Some l').
Proof.
  intros Hvs. revert cl' er'.
  induction ws as [|w ws IH] using rev_ind; intros cl' er' H.
  - rewrite app_nil_r, Hvs in H. injection H as <- <-. eauto.
  - rewrite app_assoc in H.
    apply fetch_errors_snoc in H as ([cl0 er0] & p & Hacc & Hp & [= -> ->]).
    destruct (IH _ _ Hacc) as [IHe IHc].
    pose proof (parse_version_wf _ _ _ Hp) as Hwf. split.
    + intros c e l Hl. rewrite (errors_merge_version (cl0, er0) p) by done.
      destruct (lookup2 p.2 c e); [eauto|]. case_decide; [eauto|].
      by eapply IHe.
    + intros c l Hl. rewrite (classes_merge_version (cl0, er0) p) by done.
      destruct (dict_get p.1 c); [eauto|]. by eapply IHc.
Qed.

Lemma entries_survive_witness :
  ∃ cl er cl' er',
    (fetch_errors sample_web ["9.1"]).2 = Ok (cl, er)
    ∧ (fetch_errors sample_web (["9.1"] ++ ["10"])).2 = Ok (cl', er')
    ∧ ∀ c e l, lookup2 er c e = Some l → ∃ l', lookup2 er' c e = Some l'.
Proof.
  eexists _, _, _, _. split; [vm_compute; reflexivity|].
  split; [vm_compute; reflexivity|].
  apply (proj1 (entries_survive sample_web ["9.1"] ["10"] _ _ _ _ eq_refl eq_refl)).
Defined.

(** ** The shape of the entries *)

Lemma upper_char_idem a : Py.upper_char (Py.upper_char a) = Py.upper_char a.
Proof. by destruct a as [[] [] [] [] [] [] [] []]. Qed.

Lemma upper_idem s : Py.upper (Py.upper s) = Py.upper s.
Proof. induction s as [|a s IH]; simpl; [done|]. by rewrite upper_char_idem, IH. Qed.

Lemma upper_nonempty s : s ≠ "" → Py.upper s ≠ "".
Proof. by destruct s. Qed.

(** What one line can do: nothing, set the label of one class and make it
    current, or store one error under the current class. *)
Lemma parse_line_cases st raw st' :
  parse_line st raw = Ok st' →
  st' = st
  ∨ (∃ cls label,
       st' = Locals (dict_set (classes st) cls label) (errors st) (Some cls)
       ∧ class_entry_ok cls label)
  ∨ (∃ c errcode s,
       class_ st = Some c
       ∧ st' = Locals (classes st) (dd_set (errors st) c errcode (Py.upper s)) (class_ st)
       ∧ String.length errcode = 5 ∧ s ≠ "").
Proof.
  unfold parse_line. destruct (cleaned raw) as [line|]; simpl; [|done].
  case_decide; [intros [= <-]; by left|].
  destruct (Re.matches 2 section_re line) as [g|] eqn:E1.
  - destruct (section_groups _ _ E1) as (a & b & text & rest & -> & Hne & _).
    intros [= <-]. right; left. eexists _, _. split; [done|].
    split; [done|]. by exists text.
  - destruct (Re.matches 3 error_re line) as [g|] eqn:E2; [|done].
    destruct (error_groups _ _ E2) as (errcode & macro & spec & -> & Hs).
    destruct spec as [[|x s]|]; [intros [= <-]; by left | | intros [= <-]; by left].
    unfold store_error. destruct (class_ st) as [c|] eqn:Hc; [|done].
    intros [= <-]. right; right. exists c, errcode, (String x s).
    split_and!; try done.
    by destruct Hs as (? & ? & ? & ? & ? & _ & Hlen & _).
Qed.

Lemma parse_line_shape st raw st' :
  shape_inv st → parse_line st raw = Ok st' → shape_inv st'.
Proof.
  intros (Hc & He & Hcur & Horph) H.
  apply parse_line_cases in H
    as [->|[(cls & label & -> & Hok)|(c & errcode & s & Hcls & -> & Hlen & Hne)]];
    [done | |]; split_and!; simpl.
  - intros c l. rewrite dict_get_set. case_decide; [by intros [= <-]; subst | apply Hc].
  - done.
  - intros c [= <-]. rewrite dict_get_set_eq. eauto.
  - intros c e l Hl. rewrite dict_get_set. case_decide; [eauto | by eapply Horph].
  - done.
  - intros c' e' l'. rewrite lookup2_dd_set. case_decide; [|apply He].
    intros [= <-]. destruct H as [_ <-].
    split_and!; [done | by apply upper_nonempty | apply upper_idem].
  - done.
  - intros c' e' l'. rewrite lookup2_dd_set. case_decide as Hd; [|apply Horph].
    intros _. destruct Hd as [<- _]. by apply Hcur.
Qed.

Lemma parse_page_shape page cl er :
  parse_page page = Ok (cl, er) →
  classes_ok cl ∧ errors_ok er
  ∧ ∀ c e l, lookup2 er c e = Some l → is_Some (dict_get cl c).
Proof.
  unfold parse_page.
  destruct (Builtins.for_each _ _ _) as [st|] eqn:E; simpl; [|done].
  intros [= <- <-].
  eapply (for_each_inv parse_line shape_inv) in E.
  - by destruct E as (? & ? & _ & ?).
  - intros ????. by apply parse_line_shape.
  - split_and!; simpl; by intros.
Qed.

Lemma parse_version_shape urlopen v cl er :
  parse_version urlopen v = Ok (cl, er) →
  classes_ok cl ∧ errors_ok er
  ∧ ∀ c e l, lookup2 er c e = Some l → is_Some (dict_get cl c).
Proof.
  unfold parse_version. destruct (version_tag v); simpl; [|done].
  destruct (urlopen _); simpl; [|done]. apply parse_page_shape.
Qed.

(** X10: in the tables of a merge that completed every class code has two
    characters and a label [Class xx - text] that repeats the code, and
    every error code has five characters and a label that is not empty and
    is in upper case. *)
Theorem registry_shape urlopen vs cl er :
  (fetch_errors urlopen vs).2 = Ok (cl, er) →
  (∀ c l, dict_get cl c = Some l → class_entry_ok c l)
  ∧ (∀ c e l, lookup2 er c e = Some l → error_entry_ok e l).
Proof.
  revert cl er. induction vs as [|v vs IH] using rev_ind; intros cl er H.
  - rewrite fetch_errors_nil in H. injection H as <- <-. by split.
  - apply fetch_errors_snoc in H as ([cl0 er0] & [cl1 er1] & Hacc & Hp & [= -> ->]).
    destruct (IH _ _ Hacc) as [IHc IHe].
    pose proof (parse_version_wf _ _ _ Hp) as Hwf.
    destruct (parse_version_shape _ _ _ _ Hp) as (Hc1 & He1 & _). split.
    + intros c l. rewrite (classes_merge_version (cl0, er0) (cl1, er1)) by done.
      simpl. destruct (dict_get cl1 c) eqn:E; [intros [= <-]; by apply Hc1 | apply IHc].
    + intros c e l. rewrite (errors_merge_version (cl0, er0) (cl1, er1)) by done.
      simpl. destruct (lookup2 er1 c e) eqn:E; [intros [= <-]; by eapply He1|].
      case_decide as Hd; [|apply IHe]. intros [= <-]. destruct Hd as [_ <-]. done.
Qed.

Lemma registry_shape_witness :
  ∃ cl er,
    (fetch_errors sample_web ["9.1"; "10"]).2 = Ok (cl, er)
    ∧ class_entry_ok "2F" "Class 2F - SQL Routine Exception".
Proof.
  eexists _, _. split; [vm_compute; reflexivity|].
  apply (proj1 (registry_shape sample_web ["9.1"; "10"] _ _ eq_refl)). by vm_compute.
Defined.

(** X11: an error is never stored under a class without a label: in the
    tables of one document every class that has errors has a label, and so
    it is after the merge, but for the fixed entry 22020 of class 22, which
    is there also when no version has a section line for class 22. *)
Theorem no_orphan_errors urlopen vs cl er :
  (fetch_errors urlopen vs).2 = Ok (cl, er) →
  (∀ c e l,
     lookup2 er c e = Some l →
     is_Some (dict_get cl c)
     ∨ (c = "22" ∧ e = "22020" ∧ l = "INVALID_LIMIT_VALUE"))
  ∧ (∀ v cl1 er1 c e l,
       parse_version urlopen v = Ok (cl1, er1) →
       lookup2 er1 c e = Some l → is_Some (dict_get cl1 c)).
Proof.
  intros H. split; [|intros v cl1 er1 c e l Hp; by eapply parse_version_shape].
  revert cl er H. induction vs as [|v vs IH] using rev_ind; intros cl er H.
  - rewrite fetch_errors_nil in H. by injection H as <- <-.
  - apply fetch_errors_snoc in H as ([cl0 er0] & [cl1 er1] & Hacc & Hp & [= -> ->]).
    pose proof (parse_version_wf _ _ _ Hp) as Hwf.
    destruct (parse_version_shape _ _ _ _ Hp) as (_ & _ & Ho1).
    intros c e l.
    rewrite (errors_merge_version (cl0, er0) (cl1, er1)),
            (classes_merge_version (cl0, er0) (cl1, er1)) by done.
    simpl. destruct (lookup2 er1 c e) eqn:E.
    + intros _. left. destruct (Ho1 _ _ _ E) as [l1 ->]. eauto.
    + case_decide as Hd.
      { intros [= <-]. right. by destruct Hd as [<- <-]. }
      intros Hl. destruct (IH _ _ Hacc _ _ _ Hl) as [[l0 Hl0]|?]; [left | by right].
      rewrite Hl0. destruct (dict_get cl1 c); eauto.
Qed.

Lemma no_orphan_errors_witness :
  ∃ cl er,
    (fetch_errors class08_web ["9.1"]).2 = Ok (cl, er)
    ∧ lookup2 er "22" "22020" = Some "INVALID_LIMIT_VALUE"
    ∧ dict_get cl "22" = None
    ∧ is_Some (dict_get cl "08").
Proof.
  eexists _, _. split; [vm_compute; reflexivity|].
  split; [by vm_compute|]. split; [by vm_compute|].
  destruct (proj1 (no_orphan_errors class08_web ["9.1"] _ _ eq_refl)
              "08" "08000" "CONNECTION_EXCEPTION") as [H|(H & _)];
    [by vm_compute | exact H | done].
Defined.

(** ** The generator: what it reads, when it raises *)

Lemma dict_get_is_Some {V} (d : dict V) k v : (k, v) ∈ d → is_Some (dict_get d k).
Proof.
  intros Hin. destruct (dict_get d k) eqn:E; [eauto|].
  apply dict_get_None in E. exfalso. apply E.
  apply list_elem_of_fmap. by exists (k, v).
Qed.

(** X12: the generator reads the errors of the classes that have a label
    and no others: tables of errors that agree on these classes give the same
    lines, so an error under a class without a label is never printed. *)
Theorem unlabelled_errors_not_printed classes errors1 errors2 :
  errtable_wf errors1 → errtable_wf errors2 →
  (∀ c e, is_Some (dict_get classes c) → lookup2 errors1 c e = lookup2 errors2 c e) →
  yielded (generate_module_data classes errors1)
  = yielded (generate_module_data classes errors2)
  ∧ raised (generate_module_data classes errors1)
    = raised (generate_module_data classes errors2).
Proof.
  intros H1 H2 Heq. unfold generate_module_data.
  destruct (class_lines (sorted classes)) as [decls [e|]]; cbn [fst snd]; [done|].
  split; [|done]. cbn [yielded].
  rewrite !(proj1 (section_lines_spec _ _)). do 3 f_equal.
  apply list_fmap_ext. intros i [c l] Hi. unfold section_of. do 3 f_equal.
  apply sorted_unique, dict_perm; [by apply inner_of_wf | by apply inner_of_wf |].
  intros e. rewrite <- !lookup2_inner_of. apply Heq. simpl.
  apply (dict_get_is_Some _ c l). rewrite <- (sorted_perm classes).
  by eapply list_elem_of_lookup_2.
Qed.

Lemma unlabelled_errors_not_printed_witness :
  yielded (generate_module_data [("08", "Class 08 - Connection Exception")]
             [("22", [("22020", "INVALID_LIMIT_VALUE")]);
              ("08", [("08000", "CONNECTION_EXCEPTION")])])
  = yielded (generate_module_data [("08", "Class 08 - Connection Exception")]
               [("08", [("08000", "CONNECTION_EXCEPTION")])]).
Proof.
  apply unlabelled_errors_not_printed.
  - apply errtable_wf_Forall, (bool_decide_unpack _). by vm_compute.
  - apply errtable_wf_Forall, (bool_decide_unpack _). by vm_compute.
  - intros c e [l Hl]. simpl in Hl. case_decide; [subst | done]. by vm_compute.
Defined.

Lemma class_const_raises label e : class_const label = Raise e → e = IndexError.
Proof.
  rewrite class_const_eq. destruct (after_first " - " label); [done|]. by intros [= <-].
Qed.

Lemma class_lines_bad items c l :
  (c, l) ∈ items → after_first " - " l = None →
  (class_lines items).2 = Some IndexError
  ∧ length (class_lines items).1 < length items.
Proof.
  intros Hin Hl. induction items as [|[c0 l0] items IH]; [by apply elem_of_nil in Hin|].
  cbn [class_lines]. destruct (class_const l0) as [err|e] eqn:E.
  - apply elem_of_cons in Hin as [[= <- <-]|Hin].
    { rewrite class_const_eq, Hl in E. done. }
    destruct (IH Hin) as [-> Hlen]. split; [done|]. simpl. lia.
  - apply class_const_raises in E as ->. split; [done|]. simpl. lia.
Qed.

(** X13: a class label without [" - "] ends the generator with
    [IndexError] in its first loop: it has yielded the two head lines and
    the declarations of the classes before that label, less than one per
    class, no section of any class, and has not touched the table of
    errors. *)
Theorem label_without_separator classes errors c l :
  (c, l) ∈ classes →
  after_first " - " l = None →
  let g := generate_module_data classes errors in
  raised g = Some IndexError
  ∧ errors_after g = errors
  ∧ ∃ decls,
      yielded g = [""; "# Error classes"] ++ decls
      ∧ length decls < length classes
      ∧ Forall (fun d => String.prefix "CLASS_" d = true) decls.
Proof.
  intros Hin Hl g. subst g. unfold generate_module_data.
  destruct (class_lines_bad (sorted classes) c l) as [Hr Hlen];
    [by rewrite sorted_perm | done |].
  rewrite Hr. split_and!; [done | done |].
  exists (class_lines (sorted classes)).1. split_and!; [done | |].
  - by rewrite (Permutation_length (sorted_perm classes)) in Hlen.
  - clear. induction (sorted classes) as [|[c l] items IH]; [constructor|].
    cbn [class_lines]. destruct (class_const l); [|constructor].
    constructor; [|done]. apply prefix_app.
Qed.

Lemma label_without_separator_witness :
  generate_module_data odd_classes []
  = Generated [""; "# Error classes"; "CLASS_CONNECTION_EXCEPTION = '08'"]
              (Some IndexError) [].
Proof.
  destruct (label_without_separator odd_classes [] "22" "Class 22: Data Exception")
    as (Hr & He & decls & Hy & _); [by right; left | by vm_compute|].
  by vm_compute.
Defined.

(** ** The target file *)

Lemma no_lf_app s1 s2 : no_lf (s1 +:+ s2) ↔ no_lf s1 ∧ no_lf s2.
Proof. unfold no_lf. rewrite all_app. apply andb_true_iff. Qed.

Lemma rstrip_no_lf body : no_lf body → Py.rstrip_lf body = body.
Proof.
  unfold no_lf, Py.rstrip_lf. induction body as [|a body IH]; [done|]. simpl.
  intros [Ha Hb]%andb_true_iff. rewrite IH by done.
  apply negb_true_iff in Ha. rewrite Ha. by destruct body.
Qed.

Lemma rstrip_app_lf body : no_lf body → Py.rstrip_lf (body +:+ nl) = body.
Proof.
  unfold no_lf, Py.rstrip_lf. induction body as [|a body IH]; [done|].
  rewrite app_cons_str. simpl.
  intros [Ha Hb]%andb_true_iff. rewrite IH by done.
  apply negb_true_iff in Ha. rewrite Ha. by destruct body.
Qed.

Lemma prefix_app_lf p body :
  no_lf p → String.prefix p (body +:+ nl) = String.prefix p body.
Proof.
  revert body. induction p as [|a p IH]; intros body Hp; [by destruct body|].
  unfold no_lf in Hp. simpl in Hp. apply andb_true_iff in Hp as [Ha Hp].
  destruct body as [|b body].
  - rewrite app_nil_l_str. simpl. destruct (ascii_dec a "010") as [->|]; [done | done].
  - rewrite app_cons_str. simpl. destruct (ascii_dec a b); [by apply IH | done].
Qed.

Lemma no_eol_no_lf s : no_eol s → no_lf s.
Proof.
  unfold no_eol, no_lf. induction s as [|a s IH]; [done|]. simpl.
  intros [[Ha _]%andb_true_iff Hs]%andb_true_iff. by rewrite Ha, IH.
Qed.

Lemma no_eol_app s1 s2 : no_eol (s1 +:+ s2) ↔ no_eol s1 ∧ no_eol s2.
Proof. unfold no_eol. rewrite all_app. apply andb_true_iff. Qed.

(** A line of a file is text without an end of line, followed by one line
    feed but maybe for the last line. *)
Lemma lines_aux_body cur after_cr s :
  no_eol cur →
  Forall (fun l => ∃ body, no_eol body ∧ (l = body +:+ nl ∨ l = body))
         (Builtins.lines_aux cur after_cr s).
Proof.
  revert cur after_cr. induction s as [|a s IH]; intros cur after_cr Hcur; simpl.
  - destruct cur; [constructor|]. constructor; [eauto | constructor].
  - destruct (Builtins.is_cr a) eqn:Hcr; [constructor; [eauto | by apply IH]|].
    destruct (Py.is_lf a) eqn:Ha.
    + destruct after_cr; [by apply IH|]. constructor; [eauto | by apply IH].
    + apply IH. apply no_eol_app. split; [done|]. unfold no_eol. simpl.
      by rewrite Ha, Hcr.
Qed.

Lemma lines_aux_unlines cur l rest :
  no_eol l →
  Builtins.lines_aux cur false (l +:+ String "010" rest)
  = (cur +:+ l +:+ nl) :: Builtins.lines_aux "" false rest.
Proof.
  revert cur. induction l as [|a l IH]; intros cur Hl.
  - by rewrite app_nil_l_str.
  - unfold no_eol in Hl. simpl in Hl.
    apply andb_true_iff in Hl as [[Ha Hcr]%andb_true_iff Hl].
    rewrite app_cons_str. simpl.
    apply negb_true_iff in Ha. apply negb_true_iff in Hcr. rewrite Ha, Hcr.
    rewrite IH by done. by rewrite app_assoc_str.
Qed.

Lemma lines_unlines_app pre rest :
  Forall no_eol pre →
  Builtins.lines (Builtins.unlines (pre ++ rest))
  = ((fun l => l +:+ nl) <$> pre) ++ Builtins.lines (Builtins.unlines rest).
Proof.
  induction 1 as [|l pre Hl Hpre IH]; [done|].
  simpl. unfold Builtins.lines at 1. rewrite lines_aux_unlines by done.
  rewrite app_nil_l_str. f_equal. apply IH.
Qed.

Lemma read_lines_inv rv ls out :
  read_lines rv ls = Ok out →
  ∃ pre s post,
    ls = pre ++ s :: post
    ∧ (∀ l, l ∈ pre → Py.startswith l "# autogenerated" = false)
    ∧ Py.startswith s "# autogenerated" = true
    ∧ out = rv ++ (Py.rstrip_lf <$> pre ++ [s]).
Proof.
  revert rv. induction ls as [|l ls IH]; intros rv; simpl; [done|].
  destruct (Py.startswith l "# autogenerated") eqn:E.
  - intros [= <-]. exists [], l, ls. split_and!; try done.
    intros l' Hl'. by apply elem_of_nil in Hl'.
  - intros (pre & s & post & -> & Hpre & Hs & ->)%IH.
    exists (l :: pre), s, post. split_and!; try done.
    + intros l' [->|Hl']%elem_of_cons; [done | by apply Hpre].
    + by rewrite <- app_assoc.
Qed.

Lemma read_lines_shape ls rv :
  Forall (fun l => ∃ body, no_eol body ∧ (l = body +:+ nl ∨ l = body)) ls →
  read_lines [] ls = Ok rv →
  ∃ before marker,
    rv = before ++ [marker]
    ∧ Py.startswith marker "# autogenerated" = true
    ∧ Forall (fun l => Py.startswith l "# autogenerated" = false) before
    ∧ Forall no_eol rv.
Proof.
  intros Hb (pre & s & post & -> & Hpre & Hs & ->)%read_lines_inv.
  apply Forall_app in Hb as [Hb1 Hb2]. apply Forall_cons in Hb2 as [Hb2 _].
  assert (Hstrip : ∀ l, (∃ body, no_eol body ∧ (l = body +:+ nl ∨ l = body)) →
            no_eol (Py.rstrip_lf l)
            ∧ Py.startswith (Py.rstrip_lf l) "# autogenerated"
              = Py.startswith l "# autogenerated").
  { intros l (body & Hbody & [-> | ->]).
    - rewrite rstrip_app_lf by (by apply no_eol_no_lf). split; [done|].
      unfold Py.startswith. by rewrite prefix_app_lf.
    - by rewrite rstrip_no_lf by (by apply no_eol_no_lf). }
  exists (Py.rstrip_lf <$> pre), (Py.rstrip_lf s).
  rewrite app_nil_l, fmap_app. split_and!; [done | | |].
  - destruct (Hstrip s Hb2) as [_ ->]. done.
  - apply Forall_fmap, Forall_forall. intros l Hl'. simpl.
    rewrite Forall_forall in Hb1. destruct (Hstrip l (Hb1 l Hl')) as [_ ->].
    by apply Hpre.
  - apply Forall_app. split.
    + apply Forall_fmap, Forall_forall. intros l Hl'. simpl.
      rewrite Forall_forall in Hb1. by destruct (Hstrip l (Hb1 l Hl')).
    + constructor; [|constructor]. by destruct (Hstrip s Hb2).
Qed.

(** X14: whatever the ends of line of the file are, what [read_base_file]
    returns is never empty: its last line starts with the marker, no line
    before it does, and no line has a line feed or a carriage return left. *)
Theorem read_base_file_result fs filename rv :
  read_base_file fs filename = Ok rv →
  ∃ before marker,
    rv = before ++ [marker]
    ∧ Py.startswith marker "# autogenerated" = true
    ∧ Forall (fun l => Py.startswith l "# autogenerated" = false) before
    ∧ Forall no_eol rv.
Proof.
  unfold read_base_file. destruct (fs filename) as [content|]; [|done].
  intros Hr. eapply read_lines_shape; [|exact Hr].
  unfold Builtins.lines. by apply lines_aux_body.
Qed.

Lemma read_base_file_result_witness :
  ∃ before marker,
    read_base_file mixed_fs "errorcodes.py" = Ok (before ++ [marker])
    ∧ Py.startswith marker "# autogenerated" = true.
Proof.
  destruct (read_base_file_result mixed_fs "errorcodes.py"
              ["# the module"; "# autogenerated data"])
    as (before & marker & Heq & Hm & _); [by vm_compute|].
  exists before, marker. split; [by rewrite <- Heq | done].
Defined.

Lemma read_lines_back before marker rest :
  Forall (fun l => Py.startswith l "# autogenerated" = false) before →
  Py.startswith marker "# autogenerated" = true →
  Forall no_eol (before ++ [marker]) →
  read_lines [] (((fun l => l +:+ nl) <$> before ++ [marker]) ++ rest)
  = Ok (before ++ [marker]).
Proof.
  intros Hb Hm Hn. rewrite fmap_app, <- app_assoc. simpl.
  apply Forall_app in Hn as [Hn1 Hn2]. apply Forall_cons in Hn2 as [Hn2 _].
  rewrite read_lines_found.
  - rewrite app_nil_l, fmap_app, <- list_fmap_compose. simpl.
    rewrite rstrip_app_lf by (by apply no_eol_no_lf). do 2 f_equal.
    rewrite <- (list_fmap_id before) at 2. apply list_fmap_ext.
    intros i l Hi. simpl. apply rstrip_app_lf, no_eol_no_lf.
    rewrite Forall_forall in Hn1. apply Hn1. by eapply list_elem_of_lookup_2.
  - intros l (l0 & -> & Hl0)%list_elem_of_fmap.
    unfold Py.startswith. rewrite prefix_app_lf by done.
    rewrite Forall_forall in Hb. by apply Hb.
  - unfold Py.startswith. by rewrite prefix_app_lf.
Qed.

Lemma read_back fs filename file_start generated :
  read_base_file fs filename = Ok file_start →
  read_base_file
    (fs_write fs filename (Builtins.unlines (file_start ++ generated))) filename
  = Ok file_start.
Proof.
  unfold read_base_file at 1. destruct (fs filename) as [content|]; [|done].
  intros Hr.
  destruct (read_lines_shape (Builtins.lines content) file_start)
    as (before & marker & -> & Hm & Hb & Hn); [by apply lines_aux_body | done |].
  unfold read_base_file, fs_write. rewrite decide_True by done.
  rewrite lines_unlines_app by done. by apply read_lines_back.
Qed.

(** What [main] does with two arguments, by the results of its steps. *)
Lemma main_two_args urlopen prog filename fs :
  main urlopen [prog; filename] fs
  = match read_base_file fs filename with
    | Raise e => Outcome [] fs (Raise e)
    | Ok file_start =>
        match (fetch_errors urlopen versions).2 with
        | Raise e => Outcome (fetch_errors urlopen versions).1 fs (Raise e)
        | Ok (cl, er) =>
            Outcome (fetch_errors urlopen versions).1
              (fs_write fs filename
                 (Builtins.unlines (file_start ++ yielded (generate_module_data cl er))))
              (Ok None)
        end
    end.
Proof.
  unfold main. destruct (read_base_file fs filename) as [file_start|]; [|done].
  destruct (fetch_errors urlopen versions).2 as [[cl er]|] eqn:E; [|done].
  pose proof (fetch_errors_wf _ _ _ E) as [Hc He].
  pose proof (fetch_errors_labels _ _ _ E) as Hl.
  destruct (generate_block cl er Hc He Hl) as (_ & _ & _ & _ & _ & _ & _ & -> & _).
  done.
Qed.

(** X15: a run either returns [None] and has rewritten the target file, and
    only that file, with the lines of [read_base_file] followed by all the
    lines of the generator, which raised nothing; or it ends otherwise, with
    the usage status or an exception, and every file is as it was. *)
Theorem main_all_or_nothing urlopen argv fs :
  (returned (main urlopen argv fs) = Ok None
   ∧ ∃ prog filename file_start cl er,
       argv = [prog; filename]
       ∧ read_base_file fs filename = Ok file_start
       ∧ (fetch_errors urlopen versions).2 = Ok (cl, er)
       ∧ raised (generate_module_data cl er) = None
       ∧ (∀ path, path ≠ filename → files (main urlopen argv fs) path = fs path)
       ∧ files (main urlopen argv fs) filename
         = Some (Builtins.unlines
                   (file_start ++ yielded (generate_module_data cl er))))
  ∨ (returned (main urlopen argv fs) ≠ Ok None ∧ files (main urlopen argv fs) = fs).
Proof.
  destruct argv as [|prog [|filename [|x argv]]]; try (right; by split).
  rewrite main_two_args.
  destruct (read_base_file fs filename) as [file_start|] eqn:Hr; [|right; by split].
  destruct (fetch_errors urlopen versions).2 as [[cl er]|] eqn:E; [|right; by split].
  left. split; [done|]. exists prog, filename, file_start, cl, er.
  pose proof (fetch_errors_wf _ _ _ E) as [Hc He].
  pose proof (fetch_errors_labels _ _ _ E) as Hl.
  destruct (generate_block cl er Hc He Hl) as (_ & _ & _ & _ & _ & _ & _ & Hg & _).
  split_and!; try done; simpl; unfold fs_write.
  - intros path Hne. by rewrite decide_False.
  - by rewrite decide_True.
Qed.

(** X16: the lines that [read_base_file] returns survive the rewrite of the
    file, whatever lines are printed after them; so a second run over the
    same web finds the same lines, writes the same file and returns the
    same. *)
Theorem rewrite_is_stable fs filename file_start :
  read_base_file fs filename = Ok file_start →
  (∀ generated,
     read_base_file
       (fs_write fs filename (Builtins.unlines (file_start ++ generated))) filename
     = Ok file_start)
  ∧ (∀ urlopen prog,
       let o := main urlopen [prog; filename] fs in
       returned o = Ok None →
       returned (main urlopen [prog; filename] (files o)) = Ok None
       ∧ trace (main urlopen [prog; filename] (files o)) = trace o
       ∧ ∀ path, files (main urlopen [prog; filename] (files o)) path = files o path).
Proof.
  intros Hr. split; [intros generated; by apply read_back|].
  intros urlopen prog o. subst o. rewrite !main_two_args, Hr.
  destruct (fetch_errors urlopen versions).2 as [[cl er]|] eqn:E; [|done].
  intros _. cbn [files returned trace]. rewrite read_back by done.
  split_and!; [done | done |]. intros path. cbn [files]. unfold fs_write.
  by case_decide.
Qed.

Lemma rewrite_is_stable_witness :
  read_base_file
    (fs_write mixed_fs "errorcodes.py"
       (Builtins.unlines
          (["# the module"; "# autogenerated data"] ++ [""; "# Error classes"])))
    "errorcodes.py"
  = Ok ["# the module"; "# autogenerated data"].
Proof.
  apply (proj1 (rewrite_is_stable mixed_fs "errorcodes.py"
                  ["# the module"; "# autogenerated data"]
                  ltac:(by vm_compute))).
Defined.

Example rewrite_twice_example :
  let o := main steady_web ["make_errorcodes.py"; "errorcodes.py"] sample_fs in
  files (main steady_web ["make_errorcodes.py"; "errorcodes.py"] (files o)) "errorcodes.py"
  = files o "errorcodes.py".
Proof. by vm_compute. Qed.

(** With any number of arguments other than one the script prints the usage
    line with its own name on the standard error stream and returns 2. *)
Lemma usage_error urlopen prog args fs :
  length args ≠ 1 →
  main urlopen (prog :: args) fs
  = Outcome [Stderr ("usage: " +:+ prog +:+ " /path/to/errorcodes.py")] fs (Ok (Some 2%Z)).
Proof. intros H. by destruct args as [|a [|b args]]. Qed.

Lemma split_ws_blank s : Py.all Py.isspace s = true → Py.split_ws s = [].
Proof.
  unfold Py.split_ws. induction s as [|a s IH]; [done|]. simpl.
  intros [Ha Hs]%andb_true_iff. rewrite Ha. by apply IH.
Qed.

(** X17: a version that is empty or all whitespace has no first word: the
    merge prints it, raises [IndexError] and asks for no document, neither
    for it nor for the versions after it. *)
Theorem blank_version_raises urlopen vs1 v vs2 acc :
  Py.all Py.isspace v = true →
  (fetch_errors urlopen vs1).2 = Ok acc →
  version_tag v = Raise IndexError
  ∧ fetch_errors urlopen (vs1 ++ v :: vs2)
    = ((fetch_errors urlopen vs1).1 ++ [Stderr v], Raise IndexError).
Proof.
  intros Hv Hacc.
  assert (Ht : version_tag v = Raise IndexError).
  { unfold version_tag. by rewrite split_ws_blank. }
  split; [done|]. unfold fetch_errors in *. rewrite io_for_each_app.
  unfold mbind at 1, io_bind at 1. rewrite Hacc.
  rewrite (fetch_cons_raise urlopen acc v vs2 IndexError).
  - unfold version_events. by rewrite Ht.
  - unfold parse_version. by rewrite Ht.
Qed.

Lemma blank_version_raises_witness :
  fetch_errors sample_web (["9.1"] ++ " " :: ["10"])
  = ([Stderr "9.1"; UrlOpen (errors_txt_url "REL9_1_STABLE"); Stderr " "], Raise IndexError).
Proof.
  edestruct (blank_version_raises sample_web ["9.1"] " " ["10"]) as [_ ->];
    [done | vm_compute; reflexivity | by vm_compute].
Defined.

(** ** The table of errors after the generator *)

Lemma dd_getitem_keeps errors c c' :
  is_Some (dict_get errors c') → is_Some (dict_get (dd_getitem errors c).2 c').
Proof.
  unfold dd_getitem. destruct (dict_get errors c) eqn:E; simpl; [done|].
  rewrite dict_get_set. by case_decide.
Qed.

Lemma section_lines_keys errors items c :
  is_Some (dict_get errors c) ∨ c ∈ items.*1 →
  is_Some (dict_get (section_lines errors items).2 c).
Proof.
  revert errors. induction items as [|[c0 l0] items IH]; intros errors H.
  - destruct H as [H|H]; [done | by apply elem_of_nil in H].
  - cbn [section_lines].
    pose proof (dict_get_dd_getitem errors c0) as Hg.
    pose proof (dd_getitem_keeps errors c0 c) as Hk.
    destruct (dd_getitem errors c0) as [inner errors']. cbn [fst snd] in *.
    apply IH. destruct H as [H|H]; [left; by apply Hk|].
    rewrite fmap_cons in H. cbn [fst] in H.
    apply elem_of_cons in H as [->|H]; [left | by right].
    rewrite Hg. eauto.
Qed.

Lemma section_lines_wf errors items :
  errtable_wf errors → errtable_wf (section_lines errors items).2.
Proof.
  revert errors. induction items as [|[c0 l0] items IH]; intros errors H; [done|].
  cbn [section_lines]. pose proof (dd_getitem_wf errors c0 H) as Hw.
  destruct (dd_getitem errors c0) as [inner errors']. simpl in *. by apply IH.
Qed.

(** X18: reading [errors[clscode]] in the generator leaves its mark on the
    table: once the generator is exhausted every class that has a label is a
    key of the table of errors, with no errors if it was not there before;
    no error is added, removed or relabelled, and the keys stay unique. *)
Theorem generator_fills_classes classes errors :
  errtable_wf errors →
  raised (generate_module_data classes errors) = None →
  let errors' := errors_after (generate_module_data classes errors) in
  (∀ c l, (c, l) ∈ classes → is_Some (dict_get errors' c))
  ∧ (∀ c, is_Some (dict_get errors c) → is_Some (dict_get errors' c))
  ∧ (∀ c e, lookup2 errors' c e = lookup2 errors c e)
  ∧ errtable_wf errors'.
Proof.
  intros Hw. unfold generate_module_data.
  destruct (class_lines (sorted classes)) as [decls [e|]]; cbn [fst snd]; [done|].
  intros _. cbn [errors_after]. split_and!.
  - intros c l Hin. apply section_lines_keys. right.
    apply list_elem_of_fmap. exists (c, l). split; [done|]. by rewrite sorted_perm.
  - intros c Hc. apply section_lines_keys. by left.
  - intros c e. rewrite !lookup2_inner_of.
    by rewrite (proj2 (section_lines_spec _ _)).
  - by apply section_lines_wf.
Qed.

Lemma generator_fills_classes_witness :
  errors_after (generate_module_data tables_a.1 tables_a.2)
  = [("22", [("22012", "DIVISION_BY_ZERO"); ("22000", "DATA_EXCEPTION")]); ("08", [])].
Proof.
  destruct (generator_fills_classes tables_a.1 tables_a.2) as (_ & _ & _ & _).
  - apply errtable_wf_Forall, (bool_decide_unpack _). by vm_compute.
  - by vm_compute.
  - by vm_compute.
Defined.
